(** * SocialModel (src/model.py): the unrolled Social-LSTM graph and its loss

    A shallow embedding of the constructor [SocialModel.__init__]: the
    frame loop that threads the recurrent state through the decoder, the
    stacking of the per-frame predictions, and the loss of the
    "Calculate_loss" scope with its L2 weight regularisation.  The
    optimizer that follows the loss (lines 169 to 183) is not embedded.

    The graph is embedded by its denotation: every tensor is the value it
    takes for one dataset element and one assignment of the trainable
    variables.  Scalars are IEEE-754 binary32 numbers ([tf.float32]), with
    the operations of [SpecFloat]; reductions add from left to right.  The
    constructor is a function into [option]: [None] is a Python exception
    raised by an index out of range or by [tf.add_n] of no tensor.

    The helper, the pooling module, the position estimate and the loss
    function are parameters.  The class [SocialDecoder] is not part of the
    source file and is modelled from the specification.  Collaborators
    that draw random numbers are relations, and the runs of the
    constructor with them are derivations ([constructs]); on collaborators
    that are functions the runs are those of the function
    [SocialModel_init]. *)

From Stdlib Require Import ZArith String Ascii Bool Lia.
From Stdlib Require Import Floats.SpecFloat.
From stdpp Require Import base option list.

Local Open Scope Z_scope.

(** ** tf.float32 *)

Module Float32.

Definition float32 := spec_float.

(** binary32: 24 bits of mantissa, the infinities have exponent 128. *)
Definition prec : Z := 24.
Definition emax : Z := 128.

Definition zero : float32 := S754_zero false.
Definition add : float32 -> float32 -> float32 := SFadd prec emax.
Definition mul : float32 -> float32 -> float32 := SFmul prec emax.
Definition div : float32 -> float32 -> float32 := SFdiv prec emax.
Definition ltb : float32 -> float32 -> bool := SFltb.

(** [tf.cast(n, tf.float32)] of an integer tensor. *)
Definition of_Z (n : Z) : float32 := binary_normalize prec emax n 0 false.

Definition one : float32 := of_Z 1.
Definition two : float32 := of_Z 2.

Definition is_finite (x : float32) : bool :=
  match x with
  | S754_zero _ | S754_finite _ _ _ => true
  | S754_infinity _ | S754_nan => false
  end.

(** [tf.nn.relu]: [max(x, 0)]. *)
Definition relu (x : float32) : float32 := if ltb x zero then zero else x.

End Float32.

Import Float32.

(** ** Tensors

    Rank-1 and rank-2 [float32] tensors are lists and lists of rows; a
    tensor of higher rank or of another element type is a nested list
    with the outermost list being axis 0. *)

Definition vec := list float32.
Definition mat := list vec.

(** [tf.zeros([r, c], tf.float32)]. *)
Definition tf_zeros (r c : nat) : mat := replicate r (replicate c zero).

(** [t[:, i]]: an index that is out of range for a row is an error. *)
Definition index_axis1 {A} (t : list (list A)) (i : nat) : option (list A) :=
  mapM (fun row => row !! i) t.

(** [t[:, :, i]]. *)
Definition index_axis2 {A} (t : list (list (list A))) (i : nat)
  : option (list (list A)) :=
  mapM (fun plane => index_axis1 plane i) t.

(** A Python slice [l[start:]]: a negative [start] counts from the end,
    and both ends are clamped to the list. *)
Definition slice_from {A} (start : Z) (l : list A) : list A :=
  let len := Z.of_nat (length l) in
  let s := if start <? 0 then Z.max 0 (len + start) else Z.min start len in
  drop (Z.to_nat s) l.

(** A Python slice [l[:stop]]. *)
Definition slice_to {A} (stop : Z) (l : list A) : list A :=
  let len := Z.of_nat (length l) in
  let e := if stop <? 0 then Z.max 0 (len + stop) else Z.min stop len in
  take (Z.to_nat e) l.

(** [tf.stack] of a Python list of same-shaped tensors along axis 0: the
    list itself becomes axis 0.  The list of the model has an entry per
    frame, and is not empty when [trajectory_size >= 2]. *)
Definition tf_stack {A} (l : list A) : list A := l.

(** [s in name] on Python strings. *)
Fixpoint str_in (s name : string) : bool :=
  if String.prefix s name then true
  else match name with
       | EmptyString => false
       | String _ rest => str_in s rest
       end.

(** ** Layers of the TensorFlow library

    The layers are functions of the values of their trainable variables.
    A layer builds its kernel from the static depth of its first input, so
    a kernel always fits the input; the products below read an entry
    that a too small kernel lacks as zero, and have no error case. *)

Definition dot (x col : vec) : float32 :=
  fold_left (fun acc p => add acc (mul p.1 p.2)) (zip x col) zero.

Definition column (j : nat) (k : mat) : vec :=
  map (fun row => default zero (row !! j)) k.

(** One row of [tf.matmul(x, kernel) + bias], [units] columns wide. *)
Definition affine (units : nat) (kernel : mat) (bias : vec) (x : vec) : vec :=
  map (fun j => add (dot x (column j kernel)) (default zero (bias !! j)))
      (seq 0 units).

(** [tf.layers.Dense(units, activation=...)]. *)
Record Dense := {
  units : nat;
  activation : float32 -> float32;
  kernel : mat;
  bias : vec
}.

Definition Dense_call (l : Dense) (inputs : mat) : mat :=
  map (fun row => map (activation l) (affine (units l) (kernel l) (bias l) row))
      inputs.

(** [LSTMStateTuple(c, h)]. *)
Record LSTMStateTuple := { c : mat; h : mat }.

(** [tf.nn.rnn_cell.LSTMCell(num_units)] with its defaults: no peepholes,
    no projection, [forget_bias = 1.0].  The logistic function and the
    hyperbolic tangent are carried by the cell and left uninterpreted. *)
Record LSTMCell := {
  num_units : nat;
  sigmoid : float32 -> float32;
  tanh : float32 -> float32;
  cell_kernel : mat;
  cell_bias : vec
}.

Definition forget_bias : float32 := one.

(** [cell.zero_state(batch_size, tf.float32)]. *)
Definition zero_state (cell : LSTMCell) (batch_size : nat) : LSTMStateTuple :=
  {| c := tf_zeros batch_size (num_units cell);
     h := tf_zeros batch_size (num_units cell) |}.

(** The cell on the row of one slot: the new [(c, h)] of the slot. *)
Definition LSTMCell_row (cell : LSTMCell) (x c_prev m_prev : vec) : vec * vec :=
  let u := num_units cell in
  let lstm_matrix :=
    affine (4 * u) (cell_kernel cell) (cell_bias cell) (x ++ m_prev) in
  let i := take u lstm_matrix in
  let j := take u (drop u lstm_matrix) in
  let f := take u (drop (2 * u) lstm_matrix) in
  let o := take u (drop (3 * u) lstm_matrix) in
  let c_new :=
    zip_with add
      (zip_with mul (map (fun x => sigmoid cell (add x forget_bias)) f) c_prev)
      (zip_with mul (map (sigmoid cell) i) (map (tanh cell) j)) in
  let m_new := zip_with mul (map (sigmoid cell) o) (map (tanh cell) c_new) in
  (c_new, m_new).

(** [cell(inputs, state)]: the output and the new state. *)
Definition LSTMCell_call (cell : LSTMCell) (inputs : mat) (state : LSTMStateTuple)
  : mat * LSTMStateTuple :=
  let rows :=
    zip_with (fun x cm => LSTMCell_row cell x cm.1 cm.2)
             inputs (zip (c state) (h state)) in
  (map snd rows, {| c := map fst rows; h := map snd rows |}).

(** ** The step decoder, [trajectory_decoders.SocialDecoder] *)

Module trajectory_decoders.
Section Decoder.

(** The element type of the neighbour masks. *)
Context {Msk : Type}.

(** [helper(frame_index, prev_chosen_embedding, current_real_embedding)] *)
Definition Helper := nat -> option mat -> mat -> mat.
(** [pooling_module(hidden_states, mask_for_frame)] *)
Definition Pooling := mat -> list (list Msk) -> mat.

(** The arguments of [decoder.initialize], in the order of the call in
    [SocialModel.__init__]. *)
Record InitArgs := {
  arg_frame : nat;
  arg_coordinates_preprocessed : mat;
  arg_new_coordinates_processed : option mat;
  arg_cell_states : LSTMStateTuple;
  arg_all_peds_preprocessed : mat;
  arg_hidden_states : mat;
  arg_peds_mask : list (list Msk);
  arg_all_peds_mask : list (list Msk)
}.

(** Modelled from the spec: the class [SocialDecoder] of the module
    [trajectory_decoders], of which the source has the constructor call
    and the calls of [initialize] and [step] only.  The object keeps the
    constructor arguments and the arguments of the last [initialize]. *)
Record SocialDecoder := {
  dec_cell : LSTMCell;
  dec_max_num_ped : nat;
  dec_helper : Helper;
  dec_pooling_module : option Pooling;
  dec_output_layer : Dense;
  dec_initialized : option InitArgs
}.

(** Modelled from the spec: the constructor of [SocialDecoder], called
    once before the frame loop. *)
Definition new (cell : LSTMCell) (max_num_ped : nat) (helper : Helper)
    (pooling_module : option Pooling) (output_layer : Dense) : SocialDecoder :=
  {| dec_cell := cell; dec_max_num_ped := max_num_ped; dec_helper := helper;
     dec_pooling_module := pooling_module; dec_output_layer := output_layer;
     dec_initialized := None |}.

(** Modelled from the spec: [SocialDecoder.initialize], which is missing
    from the source; it stores what the coming step consumes. *)
Definition initialize (d : SocialDecoder) (args : InitArgs) : SocialDecoder :=
  {| dec_cell := dec_cell d; dec_max_num_ped := dec_max_num_ped d;
     dec_helper := dec_helper d; dec_pooling_module := dec_pooling_module d;
     dec_output_layer := dec_output_layer d;
     dec_initialized := Some args |}.

(** Modelled from the spec: input selection of [SocialDecoder.step]
    (4.3, item 1).  The helper receives the frame index, the previously
    predicted embedding and the ground-truth embedding of the frame. *)
Definition selected_input (d : SocialDecoder) (a : InitArgs) : mat :=
  dec_helper d (arg_frame a) (arg_new_coordinates_processed a)
             (arg_coordinates_preprocessed a).

(** Modelled from the spec: context pooling of [SocialDecoder.step]
    (4.3, item 2), from the hidden states and the neighbour mask of the
    frame; absent when no pooling strategy is configured. *)
Definition pooled_context (d : SocialDecoder) (a : InitArgs) : option mat :=
  (fun pooling_module => pooling_module (arg_hidden_states a) (arg_peds_mask a))
    <$> dec_pooling_module d.

(** Modelled from the spec: the input of the recurrent cell; the pooled
    context is concatenated to the selected embedding, slot by slot. *)
Definition rnn_input (d : SocialDecoder) (a : InitArgs) : mat :=
  match pooled_context d a with
  | Some pooled => zip_with app (selected_input d a) pooled
  | None => selected_input d a
  end.

(** Modelled from the spec: [SocialDecoder.step] (4.3, items 1 to 4),
    missing from the source: select the input, pool, advance the cell
    and project its output.  A step before any [initialize] has nothing
    to consume and fails.  The tensors of the collaborators are paired
    with the state slot by slot; a collaborator that returns a tensor of a
    wrong shape is rejected by the library while the graph is built, and
    is outside the model. *)
Definition step (d : SocialDecoder) : option (mat * LSTMStateTuple * mat) :=
  a ← dec_initialized d;
  let '(cell_output, cell_states) :=
    LSTMCell_call (dec_cell d) (rnn_input d a) (arg_cell_states a) in
  let layered_output := Dense_call (dec_output_layer d) cell_output in
  Some (cell_output, cell_states, layered_output).

End Decoder.
Arguments InitArgs : clear implicits.
Arguments SocialDecoder : clear implicits.
Arguments Pooling : clear implicits.
End trajectory_decoders.

Import trajectory_decoders.

(** ** The dataset element and the trainable variables *)

(** [dataset.tensors]: [input_data] and [all_peds] have shape
    [max_num_ped, trajectory_size, 2], the two masks have shape
    [max_num_ped, max_num_ped, trajectory_size], and [num_peds_frame] is an
    integer scalar. *)
Record Dataset {Msk : Type} := {
  tensors_0 : list (list vec);
  tensors_1 : list (list (list Msk));
  tensors_2 : Z;
  tensors_3 : list (list vec);
  tensors_4 : list (list (list Msk))
}.
Arguments Dataset : clear implicits.

(** A trainable variable of the graph: its name and its entries (the
    regulariser reduces over all of them, whatever the shape). *)
Record TFVariable := { name : string; value : vec }.

(** The values of the variables of the three layers of the model, with the
    two activation functions of the cell. *)
Record Weights := {
  lstm_sigmoid : float32 -> float32;
  lstm_tanh : float32 -> float32;
  lstm_kernel : mat;
  lstm_bias : vec;
  coordinates_kernel : mat;
  coordinates_bias : vec;
  position_kernel : mat;
  position_bias : vec
}.

(** [tf.nn.l2_loss(t)]: [sum(t ** 2) / 2]. *)
Definition tf_nn_l2_loss (t : vec) : float32 :=
  div (fold_left (fun acc x => add acc (mul x x)) t zero) two.

(** [tf.add_n(inputs)]: an empty list of inputs is a [ValueError]. *)
Definition tf_add_n (inputs : list float32) : option float32 :=
  match inputs with
  | [] => None
  | x :: rest => Some (fold_left add rest x)
  end.

(** ** [SocialModel.__init__] *)

(** The attributes of the constructed object that the graph exposes. *)
Record SocialModel {V Msk : Type} := {
  input_data : list (list vec);
  peds_mask : list (list (list Msk));
  num_peds_frame : Z;
  all_peds : list (list vec);
  all_peds_mask : list (list (list Msk));
  new_coordinates : list (list V);
  cell : LSTMCell;
  cell_states : LSTMStateTuple;
  coordinates_layer : Dense;
  output_layer : Dense;
  coordinates_preprocessed : option mat;
  loss : float32
}.
Arguments SocialModel : clear implicits.

(** What the frame loop reads and assigns: the attributes
    [self.new_coordinates], [self.cell_states] and
    [self.coordinates_preprocessed] (unset before the first frame), the
    locals [new_coordinates_processed] and [cell_output], and the decoder
    object. *)
Record LoopState {V Msk : Type} := {
  st_new_coordinates : list (list V);
  st_new_coordinates_processed : option mat;
  st_cell_output : mat;
  st_cell_states : LSTMStateTuple;
  st_coordinates_preprocessed : option mat;
  st_decoder : SocialDecoder Msk
}.
Arguments LoopState : clear implicits.

Section Model.

(** [V] is what [position_estimate] returns for one slot: the values to
    minimise in the training phase, a coordinate in the sampling phase. *)
Context {V Msk : Type}.

Definition PositionEstimate :=
  mat -> mat -> nat -> (mat -> mat) -> list V * mat.
Definition LossFunction := list (list V) -> float32.

(** The arguments of the constructor that reach the graph of the loss. *)
Variable dataset : Dataset Msk.
Variable helper : Helper.
Variable position_estimate : PositionEstimate.
Variable loss_function : LossFunction.
Variable pooling_module : option (Pooling Msk).
Variable lstm_size : nat.
Variable max_num_ped : nat.
Variable prediction_time : Z.
Variable trajectory_size : Z.
Variable embedding_size : nat.
Variable l2_norm : float32.

(** The state of the graph: the values of the variables of the layers,
    and [tf.trainable_variables()], the collection of every trainable
    variable, those of the collaborators included. *)
Variable weights : Weights.
Variable tvars : list TFVariable.

Definition output_size : nat := 5.

Definition the_cell : LSTMCell :=
  {| num_units := lstm_size;
     sigmoid := lstm_sigmoid weights; tanh := lstm_tanh weights;
     cell_kernel := lstm_kernel weights; cell_bias := lstm_bias weights |}.

Definition the_coordinates_layer : Dense :=
  {| units := embedding_size; activation := relu;
     kernel := coordinates_kernel weights; bias := coordinates_bias weights |}.

Definition the_output_layer : Dense :=
  {| units := output_size; activation := fun x => x;
     kernel := position_kernel weights; bias := position_bias weights |}.

(** Lines 66 to 111: the state before the first frame. *)
Definition initial_state : LoopState V Msk :=
  {| st_new_coordinates := [];
     st_new_coordinates_processed := None;
     st_cell_output := tf_zeros max_num_ped lstm_size;
     st_cell_states := zero_state the_cell max_num_ped;
     st_coordinates_preprocessed := None;
     st_decoder :=
       trajectory_decoders.new the_cell max_num_ped helper pooling_module
                               the_output_layer |}.

(** What [decoder.initialize] receives at [frame] (lines 125 to 134). *)
Definition initialize_args (frame : nat) (st : LoopState V Msk)
  : option (InitArgs Msk) :=
  coordinates ← index_axis1 (tensors_0 dataset) frame;
  all_coordinates ← index_axis1 (tensors_3 dataset) frame;
  mask ← index_axis2 (tensors_1 dataset) frame;
  all_mask ← index_axis2 (tensors_4 dataset) frame;
  Some {| arg_frame := frame;
          arg_coordinates_preprocessed :=
            Dense_call the_coordinates_layer coordinates;
          arg_new_coordinates_processed := st_new_coordinates_processed st;
          arg_cell_states := st_cell_states st;
          arg_all_peds_preprocessed :=
            Dense_call the_coordinates_layer all_coordinates;
          arg_hidden_states := st_cell_output st;
          arg_peds_mask := mask;
          arg_all_peds_mask := all_mask |}.

(** The body of the loop (lines 115 to 150). *)
Definition frame_body (frame : nat) (st : LoopState V Msk)
  : option (LoopState V Msk) :=
  args ← initialize_args frame st;
  let decoder := initialize (st_decoder st) args in
  '(cell_output, cell_states, layered_output) ← step decoder;
  next ← index_axis1 (tensors_0 dataset) (S frame);
  let '(new_coordinates, new_coordinates_processed) :=
    position_estimate layered_output next output_size
                      (Dense_call the_coordinates_layer) in
  Some {| st_new_coordinates := st_new_coordinates st ++ [new_coordinates];
          st_new_coordinates_processed := Some new_coordinates_processed;
          st_cell_output := cell_output;
          st_cell_states := cell_states;
          st_coordinates_preprocessed :=
            Some (arg_coordinates_preprocessed args);
          st_decoder := decoder |}.

(** [for frame in frames: ...] *)
Fixpoint decode (frames : list nat) (st : LoopState V Msk)
  : option (LoopState V Msk) :=
  match frames with
  | [] => Some st
  | frame :: rest => st' ← frame_body frame st; decode rest st'
  end.

(** [range(trajectory_size - 1)] *)
Definition frames : list nat := seq 0 (Z.to_nat (trajectory_size - 1)).

(** The regularisation term (lines 162 to 166). *)
Definition l2_loss : option float32 :=
  (fun s => mul s l2_norm) <$>
  tf_add_n
    (map (fun v => tf_nn_l2_loss (value v))
         (List.filter (fun v => negb (str_in "bias" (name v))) tvars)).

(** [self.new_coordinates[-prediction_time:, : self.num_peds_frame]] *)
Definition loss_slice (stacked : list (list V)) : list (list V) :=
  map (slice_to (tensors_2 dataset)) (slice_from (- prediction_time) stacked).

(** The loss of the stacked predictions (lines 155 to 167). *)
Definition calculate_loss (stacked : list (list V)) : option float32 :=
  let loss := loss_function (loss_slice stacked) in
  let loss := div loss (of_Z (tensors_2 dataset)) in
  l2 ← l2_loss;
  Some (add loss l2).

(** The constructor, up to the loss (lines 50 to 167). *)
Definition SocialModel_init : option (SocialModel V Msk) :=
  st ← decode frames initial_state;
  let stacked := tf_stack (st_new_coordinates st) in
  loss ← calculate_loss stacked;
  Some {| input_data := tensors_0 dataset;
          peds_mask := tensors_1 dataset;
          num_peds_frame := tensors_2 dataset;
          all_peds := tensors_3 dataset;
          all_peds_mask := tensors_4 dataset;
          new_coordinates := stacked;
          cell := the_cell;
          cell_states := st_cell_states st;
          coordinates_layer := the_coordinates_layer;
          output_layer := the_output_layer;
          coordinates_preprocessed := st_coordinates_preprocessed st;
          loss := loss |}.

End Model.

(** ** Shapes and valid dataset elements *)

Definition has_shape2 {A} (r k : nat) (t : list (list A)) : Prop :=
  length t = r /\ Forall (fun row => length row = k) t.

Definition has_shape3 {A} (r k d : nat) (t : list (list (list A))) : Prop :=
  length t = r /\ Forall (has_shape2 k d) t.

(** A dataset element for [max_num_ped] slots and [trajectory_size] frames:
    the five tensors have their documented shapes and the count of active
    slots is a count of slots. *)
Definition valid_dataset {Msk} (max_num_ped : nat) (trajectory_size : Z)
    (d : Dataset Msk) : Prop :=
  has_shape3 max_num_ped (Z.to_nat trajectory_size) 2 (tensors_0 d) /\
  has_shape3 max_num_ped max_num_ped (Z.to_nat trajectory_size) (tensors_1 d) /\
  0 <= tensors_2 d <= Z.of_nat max_num_ped /\
  has_shape3 max_num_ped (Z.to_nat trajectory_size) 2 (tensors_3 d) /\
  has_shape3 max_num_ped max_num_ped (Z.to_nat trajectory_size) (tensors_4 d).

(** The regulariser has a variable to sum over. *)
Definition has_weight_variable (tvars : list TFVariable) : Prop :=
  List.filter (fun v => negb (str_in "bias" (name v))) tvars <> [].

(** Modelled from the spec: the reference helper stub of section 8, which
    returns the ground-truth embedding when there is no previous
    prediction, and the previous prediction otherwise. *)
Definition reference_helper : Helper :=
  fun _ previous real =>
    match previous with
    | None => real
    | Some predicted => predicted
    end.

(** ** The end-to-end scenario of section 8

    [max_num_ped = 2], [trajectory_size = 3], [lstm_size = 4],
    [embedding_size = 3], with the three stub collaborators. *)

Module Scenario.

(** The helper always returns the ground truth. *)
Definition helper_ground_truth : Helper := fun _ _ real => real.

(** Pooling returns zeros, one row per slot. *)
Definition pooling_zeros {Msk} : Pooling Msk :=
  fun hidden_states _ => map (fun _ => replicate 4%nat zero) hidden_states.

(** [position_estimate] returns the real next coordinate verbatim, with
    its embedding. *)
Definition position_verbatim : @PositionEstimate vec :=
  fun _ next _ layer => (next, layer next).

(** [tf.reduce_sum] as the loss function. *)
Definition reduce_sum : @LossFunction vec :=
  fun t => fold_left add (concat (concat t)) zero.

(** A loss function that is zero everywhere. *)
Definition zero_loss : @LossFunction vec := fun _ => zero.

Definition ones (r k : nat) : mat := replicate r (replicate k one).

Definition weights : Weights :=
  {| lstm_sigmoid := fun x => x; lstm_tanh := fun x => x;
     lstm_kernel := ones 11 16; lstm_bias := replicate 16%nat zero;
     coordinates_kernel := ones 2 3; coordinates_bias := replicate 3%nat zero;
     position_kernel := ones 4 5; position_bias := replicate 5%nat zero |}.

Definition tvars : list TFVariable :=
  [ {| name := "Coordinates/Layer/kernel:0"; value := [one] |};
    {| name := "Coordinates/Layer/bias:0"; value := [one; one] |} ].

Definition p (x y : Z) : vec := [of_Z x; of_Z y].

Definition mask : list (list (list bool)) :=
  replicate 2%nat (replicate 2%nat (replicate 3%nat true)).

(** Two pedestrians, three frames. *)
Definition dataset (num_peds : Z) : Dataset bool :=
  {| tensors_0 := [ [p 1 1; p 2 1; p 3 1]; [p 1 5; p 1 6; p 1 7] ];
     tensors_1 := mask;
     tensors_2 := num_peds;
     tensors_3 := [ [p 1 1; p 2 1; p 3 1]; [p 1 5; p 1 6; p 1 7] ];
     tensors_4 := mask |}.

(** Another position estimate, which swaps the slots of its prediction. *)
Definition position_swapped : @PositionEstimate vec :=
  fun _ next _ layer => (rev next, layer next).

(** Two stacked sequences with one active pedestrian and different
    padding. *)
Definition padded_1 : list (list vec) :=
  [ [p 2 1; p 1 6; p 9 9]; [p 3 1; p 1 7; p 8 8] ].
Definition padded_2 : list (list vec) :=
  [ [p 2 1; p 5 5; p 1 6]; [p 3 1] ].

(** The scenario with tensors of other lengths in time: two frames of
    [input_data] where three are decoded; one frame of the masks where two
    are read; and the neighbour tensors cut to the two frames that are
    read, or with another last frame. *)
Definition short_input : Dataset bool :=
  {| tensors_0 := [ [p 1 1; p 2 1]; [p 1 5; p 1 6] ];
     tensors_1 := mask;
     tensors_2 := 2;
     tensors_3 := [ [p 1 1; p 2 1; p 3 1]; [p 1 5; p 1 6; p 1 7] ];
     tensors_4 := mask |}.

Definition short_masks : Dataset bool :=
  {| tensors_0 := [ [p 1 1; p 2 1; p 3 1]; [p 1 5; p 1 6; p 1 7] ];
     tensors_1 := replicate 2%nat (replicate 2%nat [true]);
     tensors_2 := 2;
     tensors_3 := [ [p 1 1; p 2 1; p 3 1]; [p 1 5; p 1 6; p 1 7] ];
     tensors_4 := mask |}.

Definition other_last_frame (num_peds : Z) : Dataset bool :=
  {| tensors_0 := [ [p 1 1; p 2 1; p 3 1]; [p 1 5; p 1 6; p 1 7] ];
     tensors_1 := replicate 2%nat (replicate 2%nat [true; true; false]);
     tensors_2 := num_peds;
     tensors_3 := [ [p 1 1; p 2 1]; [p 1 5; p 1 6; p 4 4] ];
     tensors_4 := replicate 2%nat (replicate 2%nat [true; true]) |}.

(** Variables that are all biases, and a bias to insert. *)
Definition only_biases : list TFVariable :=
  [ {| name := "Coordinates/Layer/bias:0"; value := [one; one] |};
    {| name := "LSTM/Cell/bias:0"; value := [two] |} ].

(** The model of the scenario for a loss function, a prediction time, a
    count of pedestrians and a regularisation factor. *)
Definition model (loss_function : @LossFunction vec) (prediction_time : Z)
    (num_peds : Z) (l2_norm : float32) : option (SocialModel vec bool) :=
  SocialModel_init (dataset num_peds) helper_ground_truth position_verbatim
                   loss_function (Some pooling_zeros) 4 2 prediction_time 3 3
                   l2_norm weights tvars.

End Scenario.

(** [tf.transpose(t, [1, 0, 2])] of a tensor of shape [[r, k, ...]]. *)
Definition transpose_01 {A} (t : list (list A)) : list (list A) :=
  let k := match t with [] => 0%nat | row :: _ => length row end in
  map (fun j => omap (fun row => row !! j) t) (seq 0 k).

(** ** The final loss in the words of the specification (section 4.4)

    The loss function on the last [prediction_time] steps and the first
    [num_peds_frame] slots of the stacked predictions, divided by the
    count of pedestrians, plus [l2_norm] times the sum over the variables
    that are not biases of a norm of each. *)

Definition last_steps {A} (k : nat) (l : list A) : list A :=
  drop (length l - k) l.

Definition first_slots {A} (k : nat) (row : list A) : list A := take k row.

Definition squared_norm (t : vec) : float32 :=
  fold_left (fun acc x => add acc (mul x x)) t zero.

Definition half_squared_norm (t : vec) : float32 := div (squared_norm t) two.

Definition is_bias (v : TFVariable) : bool := str_in "bias" (name v).

Definition sum_float32 (l : list float32) : float32 :=
  match l with
  | [] => zero
  | x :: rest => fold_left add rest x
  end.

Definition stated_regularization (norm : vec -> float32) (l2_norm : float32)
    (tvars : list TFVariable) : float32 :=
  mul l2_norm
      (sum_float32
         (map (fun v => norm (value v))
              (List.filter (fun v => negb (is_bias v)) tvars))).

Definition stated_loss {V} (norm : vec -> float32)
    (loss_function : @LossFunction V) (prediction_time num_peds_frame : Z)
    (l2_norm : float32) (tvars : list TFVariable) (stacked : list (list V))
  : float32 :=
  add (div (loss_function
              (map (first_slots (Z.to_nat num_peds_frame))
                   (last_steps (Z.to_nat prediction_time) stacked)))
           (of_Z num_peds_frame))
      (stated_regularization norm l2_norm tvars).

(** The two policies that section 8 offers for [num_peds_frame = 0]: the
    construction fails, or the normalisation is guarded and the loss is a
    number. *)
Definition zero_count_policy {V Msk} (result : option (SocialModel V Msk))
  : Prop :=
  result = None \/ exists m, result = Some m /\ is_finite (loss m) = true.

(** ** Invariants of the frame loop *)

(** The decoder object keeps the collaborators it was constructed with. *)
Definition same_decoder {V Msk} (helper : Helper)
    (pooling_module : option (Pooling Msk)) (lstm_size : nat)
    (weights : Weights) (st : LoopState V Msk) : Prop :=
  dec_cell (st_decoder st) = the_cell lstm_size weights /\
  dec_helper (st_decoder st) = helper /\
  dec_pooling_module (st_decoder st) = pooling_module /\
  dec_output_layer (st_decoder st) = the_output_layer weights.

(** The recurrent state has one row of [lstm_size] entries per slot. *)
Definition state_shape {V Msk} (lstm_size max_num_ped : nat)
    (st : LoopState V Msk) : Prop :=
  has_shape2 max_num_ped lstm_size (st_cell_output st) /\
  has_shape2 max_num_ped lstm_size (c (st_cell_states st)) /\
  has_shape2 max_num_ped lstm_size (h (st_cell_states st)).

(** The calls of [decoder.initialize] that the frame loop makes: [a] holds
    the arguments of the call at [frame], in the state that the iterations
    before [frame] leave. *)
Definition initialize_call {V Msk} (dataset : Dataset Msk) (helper : Helper)
    (position_estimate : @PositionEstimate V)
    (pooling_module : option (Pooling Msk)) (lstm_size max_num_ped : nat)
    (trajectory_size : Z) (embedding_size : nat) (weights : Weights)
    (frame : nat) (a : InitArgs Msk) : Prop :=
  (frame < Z.to_nat (trajectory_size - 1))%nat /\
  exists st,
    decode dataset position_estimate embedding_size weights (seq 0 frame)
           (initial_state helper pooling_module lstm_size max_num_ped weights)
    = Some st /\
    initialize_args dataset embedding_size weights frame st = Some a.

(** ** Runs with collaborators that may be random

    The specification lets the helper and the position estimate draw
    random numbers.  A collaborator that may do so relates its arguments
    to every result it can return, and a run of the constructor is a
    derivation that picks one result at each call.  The frame loop and the
    loss below are those of [frame_body], [decode] and [SocialModel_init],
    call by call; the decoder object is reduced to the arguments of its
    last [initialize]. *)

Record RunState {V Msk : Type} := {
  run_new_coordinates : list (list V);
  run_new_coordinates_processed : option mat;
  run_cell_output : mat;
  run_cell_states : LSTMStateTuple;
  run_coordinates_preprocessed : option mat;
  run_initialized : option (InitArgs Msk)
}.
Arguments RunState : clear implicits.

(** The state of a run of the functional loop. *)
Definition to_run {V Msk} (st : LoopState V Msk) : RunState V Msk :=
  {| run_new_coordinates := st_new_coordinates st;
     run_new_coordinates_processed := st_new_coordinates_processed st;
     run_cell_output := st_cell_output st;
     run_cell_states := st_cell_states st;
     run_coordinates_preprocessed := st_coordinates_preprocessed st;
     run_initialized := dec_initialized (st_decoder st) |}.

Section Runs.
Context {V Msk : Type}.

Definition RandomHelper := nat -> option mat -> mat -> mat -> Prop.
Definition RandomPooling := mat -> list (list Msk) -> mat -> Prop.
Definition RandomPositionEstimate :=
  mat -> mat -> nat -> (mat -> mat) -> list V * mat -> Prop.
Definition RandomLossFunction := list (list V) -> float32 -> Prop.

(** A collaborator is deterministic when it has one result at most for
    its arguments. *)
Definition deterministic_helper (helper : RandomHelper) : Prop :=
  forall frame previous real chosen1 chosen2,
    helper frame previous real chosen1 ->
    helper frame previous real chosen2 -> chosen1 = chosen2.

Definition deterministic_pooling (pooling_module : option RandomPooling)
  : Prop :=
  forall pooling, pooling_module = Some pooling ->
  forall hidden_states mask pooled1 pooled2,
    pooling hidden_states mask pooled1 ->
    pooling hidden_states mask pooled2 -> pooled1 = pooled2.

Definition deterministic_position_estimate
    (position_estimate : RandomPositionEstimate) : Prop :=
  forall layered_output next size layer estimate1 estimate2,
    position_estimate layered_output next size layer estimate1 ->
    position_estimate layered_output next size layer estimate2 ->
    estimate1 = estimate2.

Definition deterministic_loss (loss_function : RandomLossFunction) : Prop :=
  forall stacked value1 value2,
    loss_function stacked value1 -> loss_function stacked value2 ->
    value1 = value2.

(** The collaborators that are functions. *)
Definition helper_graph (helper : Helper) : RandomHelper :=
  fun frame previous real chosen => chosen = helper frame previous real.
Definition pooling_graph (pooling : Pooling Msk) : RandomPooling :=
  fun hidden_states mask pooled => pooled = pooling hidden_states mask.
Definition position_graph (position_estimate : @PositionEstimate V)
  : RandomPositionEstimate :=
  fun layered_output next size layer estimate =>
    estimate = position_estimate layered_output next size layer.
Definition loss_graph (loss_function : @LossFunction V) : RandomLossFunction :=
  fun stacked value => value = loss_function stacked.

(** A random collaborator can return what a function returns. *)
Definition helper_can (random : RandomHelper) (helper : Helper) : Prop :=
  forall frame previous real, random frame previous real (helper frame previous real).
Definition pooling_can (random : option RandomPooling)
    (pooling_module : option (Pooling Msk)) : Prop :=
  match random, pooling_module with
  | Some random_pooling, Some pooling =>
      forall hidden_states mask,
        random_pooling hidden_states mask (pooling hidden_states mask)
  | None, None => True
  | _, _ => False
  end.
Definition position_can (random : RandomPositionEstimate)
    (position_estimate : @PositionEstimate V) : Prop :=
  forall layered_output next size layer,
    random layered_output next size layer
           (position_estimate layered_output next size layer).
Definition loss_can (random : RandomLossFunction)
    (loss_function : @LossFunction V) : Prop :=
  forall stacked, random stacked (loss_function stacked).

Variable dataset : Dataset Msk.
Variable helper : RandomHelper.
Variable position_estimate : RandomPositionEstimate.
Variable loss_function : RandomLossFunction.
Variable pooling_module : option RandomPooling.
Variable lstm_size : nat.
Variable max_num_ped : nat.
Variable prediction_time : Z.
Variable trajectory_size : Z.
Variable embedding_size : nat.
Variable l2_norm : float32.
Variable weights : Weights.
Variable tvars : list TFVariable.

(** Lines 66 to 87: the state before the first frame. *)
Definition initial_run : RunState V Msk :=
  {| run_new_coordinates := [];
     run_new_coordinates_processed := None;
     run_cell_output := tf_zeros max_num_ped lstm_size;
     run_cell_states := zero_state (the_cell lstm_size weights) max_num_ped;
     run_coordinates_preprocessed := None;
     run_initialized := None |}.

(** What [decoder.initialize] receives at [frame] (lines 125 to 134). *)
Definition run_initialize_args (frame : nat) (st : RunState V Msk)
  : option (InitArgs Msk) :=
  coordinates ← index_axis1 (tensors_0 dataset) frame;
  all_coordinates ← index_axis1 (tensors_3 dataset) frame;
  mask ← index_axis2 (tensors_1 dataset) frame;
  all_mask ← index_axis2 (tensors_4 dataset) frame;
  Some {| arg_frame := frame;
          arg_coordinates_preprocessed :=
            Dense_call (the_coordinates_layer embedding_size weights) coordinates;
          arg_new_coordinates_processed := run_new_coordinates_processed st;
          arg_cell_states := run_cell_states st;
          arg_all_peds_preprocessed :=
            Dense_call (the_coordinates_layer embedding_size weights)
                       all_coordinates;
          arg_hidden_states := run_cell_output st;
          arg_peds_mask := mask;
          arg_all_peds_mask := all_mask |}.

(** Modelled from the spec: the cell and the output projection of
    [SocialDecoder.step] (4.3, items 3 and 4) on the input of the cell. *)
Definition cell_step (input : mat) (states : LSTMStateTuple)
  : mat * LSTMStateTuple * mat :=
  let r := LSTMCell_call (the_cell lstm_size weights) input states in
  (r.1, r.2, Dense_call (the_output_layer weights) r.1).

(** Modelled from the spec: [SocialDecoder.step] with a helper and a
    pooling strategy that may be random (4.3, items 1 to 4). *)
Inductive decoder_steps (a : InitArgs Msk)
  : mat * LSTMStateTuple * mat -> Prop :=
| steps_without_pooling chosen :
    pooling_module = None ->
    helper (arg_frame a) (arg_new_coordinates_processed a)
           (arg_coordinates_preprocessed a) chosen ->
    decoder_steps a (cell_step chosen (arg_cell_states a))
| steps_with_pooling pooling chosen pooled :
    pooling_module = Some pooling ->
    helper (arg_frame a) (arg_new_coordinates_processed a)
           (arg_coordinates_preprocessed a) chosen ->
    pooling (arg_hidden_states a) (arg_peds_mask a) pooled ->
    decoder_steps a (cell_step (zip_with app chosen pooled) (arg_cell_states a)).

(** One iteration of the loop (lines 115 to 150). *)
Inductive frame_runs (frame : nat) (st : RunState V Msk)
  : RunState V Msk -> Prop :=
| frame_run a result next estimate :
    run_initialize_args frame st = Some a ->
    decoder_steps a result ->
    index_axis1 (tensors_0 dataset) (S frame) = Some next ->
    position_estimate result.2 next output_size
      (Dense_call (the_coordinates_layer embedding_size weights)) estimate ->
    frame_runs frame st
      {| run_new_coordinates := run_new_coordinates st ++ [estimate.1];
         run_new_coordinates_processed := Some estimate.2;
         run_cell_output := result.1.1;
         run_cell_states := result.1.2;
         run_coordinates_preprocessed :=
           Some (arg_coordinates_preprocessed a);
         run_initialized := Some a |}.

(** [for frame in frames: ...] *)
Inductive decode_runs : list nat -> RunState V Msk -> RunState V Msk -> Prop :=
| decode_done st : decode_runs [] st st
| decode_next frame rest st st' st'' :
    frame_runs frame st st' ->
    decode_runs rest st' st'' ->
    decode_runs (frame :: rest) st st''.

(** The constructor, up to the loss (lines 50 to 167): the models that a
    run can construct. *)
Inductive constructs : SocialModel V Msk -> Prop :=
| constructed st value l2 :
    decode_runs (frames trajectory_size) initial_run st ->
    loss_function
      (loss_slice dataset prediction_time (tf_stack (run_new_coordinates st)))
      value ->
    l2_loss l2_norm tvars = Some l2 ->
    constructs
      {| input_data := tensors_0 dataset;
         peds_mask := tensors_1 dataset;
         num_peds_frame := tensors_2 dataset;
         all_peds := tensors_3 dataset;
         all_peds_mask := tensors_4 dataset;
         new_coordinates := tf_stack (run_new_coordinates st);
         cell := the_cell lstm_size weights;
         cell_states := run_cell_states st;
         coordinates_layer := the_coordinates_layer embedding_size weights;
         output_layer := the_output_layer weights;
         coordinates_preprocessed := run_coordinates_preprocessed st;
         loss := add (div value (of_Z (tensors_2 dataset))) l2 |}.

End Runs.

(** A random position estimate of the scenario: the real next coordinates,
    with the slots in either order. *)
Definition either_position : @RandomPositionEstimate vec :=
  fun layered_output next size layer estimate =>
    estimate = Scenario.position_verbatim layered_output next size layer \/
    estimate = Scenario.position_swapped layered_output next size layer.

(** ** Further vocabulary *)

(** A row of a tensor holds fewer than [k] frames. *)
Definition fewer_frames {A} (k : nat) (row : list A) : Prop :=
  (length row < k)%nat.

(** The five reads of the iteration of [frame] give the same tensors on
    two dataset elements. *)
Definition same_reads {Msk} (d1 d2 : Dataset Msk) (frame : nat) : Prop :=
  index_axis1 (tensors_0 d1) frame = index_axis1 (tensors_0 d2) frame /\
  index_axis1 (tensors_3 d1) frame = index_axis1 (tensors_3 d2) frame /\
  index_axis2 (tensors_1 d1) frame = index_axis2 (tensors_1 d2) frame /\
  index_axis2 (tensors_4 d1) frame = index_axis2 (tensors_4 d2) frame /\
  index_axis1 (tensors_0 d1) (S frame) = index_axis1 (tensors_0 d2) (S frame).

(** [name] has [s] as a substring. *)
Definition contains (s name : string) : Prop :=
  exists before after, name = (before ++ s ++ after)%string.

(** A number that is not below zero: a zero, a positive number, plus
    infinity, or not a number. *)
Definition not_negative (x : float32) : Prop := ltb x zero = false.

(** The sign bit of a number is clear, or it is not a number. *)
Definition sign_clear (x : float32) : Prop :=
  match x with
  | S754_nan => True
  | S754_zero s | S754_infinity s | S754_finite s _ _ => s = false
  end.

(** * Properties *)

(** ** Indexing and slicing *)

Section Indexing.
Context {A : Type}.
Implicit Types (row : list A) (t : list (list A)).

Lemma index_axis1_is_Some t i :
  Forall (fun row => (i < length row)%nat) t -> is_Some (index_axis1 t i).
Proof.
  intros Hlen. apply mapM_is_Some. eapply Forall_impl; [exact Hlen|].
  intros row Hrow. simpl. by apply lookup_lt_is_Some.
Qed.

Lemma index_axis1_length t i col :
  index_axis1 t i = Some col -> length col = length t.
Proof. intros Hcol. symmetry. by eapply length_mapM. Qed.

Lemma index_axis1_shape r k t i :
  has_shape2 r k t -> (i < k)%nat ->
  exists col, index_axis1 t i = Some col /\ length col = r.
Proof.
  intros [Hr Hk] Hi.
  destruct (index_axis1_is_Some t i) as [col Hcol].
  - eapply Forall_impl; [exact Hk|]. simpl. intros row ->. exact Hi.
  - exists col. split; [exact Hcol|].
    by rewrite (index_axis1_length _ _ _ Hcol).
Qed.

Lemma index_axis2_shape r k d (t : list (list (list A))) i :
  has_shape3 r k d t -> (i < d)%nat ->
  exists m, index_axis2 t i = Some m /\ length m = r.
Proof.
  intros [Hr Hplanes] Hi.
  destruct (mapM_is_Some_2 (fun plane => index_axis1 plane i) t) as [m Hm].
  - eapply Forall_impl; [exact Hplanes|]. simpl. intros plane Hplane.
    destruct (index_axis1_shape _ _ _ i Hplane Hi) as (col & -> & _). eauto.
  - exists m. split; [exact Hm|].
    apply length_mapM in Hm. congruence.
Qed.

(** With a positive count, [l[-k:]] is the last [k] entries of [l], all of
    them when there are fewer. *)
Lemma slice_from_neg (k : Z) (l : list A) :
  1 <= k -> slice_from (- k) l = drop (length l - Z.to_nat k) l.
Proof.
  intros Hk. unfold slice_from.
  destruct (Z.ltb_spec (- k) 0) as [_|]; [|lia].
  f_equal. lia.
Qed.

(** [l[-0:]] is [l[0:]], the whole list. *)
Lemma slice_from_zero (l : list A) : slice_from (- 0) l = l.
Proof. unfold slice_from. simpl. by rewrite Z.min_l by lia. Qed.

(** With a count that is not negative, [l[:n]] is the first [n] entries. *)
Lemma slice_to_nonneg (n : Z) (l : list A) :
  0 <= n -> slice_to n l = take (Z.to_nat n) l.
Proof.
  intros Hn. unfold slice_to.
  destruct (Z.ltb_spec n 0) as [|_]; [lia|].
  destruct (Z.le_gt_cases n (Z.of_nat (length l))) as [Hle|Hgt].
  - by rewrite Z.min_l.
  - rewrite Z.min_r by lia. rewrite Nat2Z.id.
    rewrite !take_ge; [done|lia|lia].
Qed.

End Indexing.

Lemma slice_from_map {A B} (f : A -> B) (start : Z) (l : list A) :
  slice_from start (map f l) = map f (slice_from start l).
Proof. unfold slice_from. by rewrite length_map, skipn_map. Qed.

Lemma tf_zeros_shape r k : has_shape2 r k (tf_zeros r k).
Proof.
  split; [apply length_replicate|].
  apply Forall_replicate. apply length_replicate.
Qed.

(** ** The frame loop *)

Section Unroll.
Context {V Msk : Type}.
Variable dataset : Dataset Msk.
Variable position_estimate : @PositionEstimate V.
Variable embedding_size : nat.
Variable weights : Weights.
Variable max_num_ped : nat.
Variable trajectory_size : Z.
Hypothesis Hvalid : valid_dataset max_num_ped trajectory_size dataset.

Abbreviation body := (frame_body dataset position_estimate embedding_size weights).
Abbreviation run := (decode dataset position_estimate embedding_size weights).
Abbreviation args_at := (initialize_args dataset embedding_size weights).
Abbreviation embed := (Dense_call (the_coordinates_layer embedding_size weights)).
Implicit Types (st : LoopState V Msk) (fs : list nat).

(** A step that follows an [initialize] consumes its arguments. *)
Lemma step_initialize (d : SocialDecoder Msk) (a : InitArgs Msk) :
  step (initialize d a) =
  Some (let r := LSTMCell_call (dec_cell d) (rnn_input (initialize d a) a)
                               (arg_cell_states a) in
        (r.1, r.2, Dense_call (dec_output_layer d) r.1)).
Proof. reflexivity. Qed.

(** One iteration, read backwards. *)
Lemma frame_body_inv frame st st' :
  body frame st = Some st' ->
  exists a next,
    args_at frame st = Some a /\
    index_axis1 (tensors_0 dataset) (S frame) = Some next /\
    let d := initialize (st_decoder st) a in
    let r := LSTMCell_call (dec_cell d) (rnn_input d a) (arg_cell_states a) in
    let e := position_estimate (Dense_call (dec_output_layer d) r.1) next
                               output_size embed in
    st' = {| st_new_coordinates := st_new_coordinates st ++ [e.1];
             st_new_coordinates_processed := Some e.2;
             st_cell_output := r.1;
             st_cell_states := r.2;
             st_coordinates_preprocessed :=
               Some (arg_coordinates_preprocessed a);
             st_decoder := d |}.
Proof.
  unfold frame_body. intros Hbody.
  destruct (args_at frame st) as [a|] eqn:Ha; [|discriminate].
  cbn [mbind option_bind] in Hbody. rewrite step_initialize in Hbody.
  cbn [mbind option_bind] in Hbody.
  destruct (index_axis1 (tensors_0 dataset) (S frame)) as [next|] eqn:Hnext;
    [|discriminate].
  cbn [mbind option_bind] in Hbody. exists a, next. repeat split.
  cbv zeta.
  destruct (position_estimate _ next output_size _) as [nc ncp] eqn:He.
  by injection Hbody as <-.
Qed.

(** What [decoder.initialize] receives at a frame of the trajectory. *)
Lemma initialize_args_valid frame st :
  (frame < Z.to_nat trajectory_size)%nat ->
  exists coordinates all_coordinates mask all_mask,
    index_axis1 (tensors_0 dataset) frame = Some coordinates /\
    length coordinates = max_num_ped /\
    index_axis1 (tensors_3 dataset) frame = Some all_coordinates /\
    index_axis2 (tensors_1 dataset) frame = Some mask /\
    index_axis2 (tensors_4 dataset) frame = Some all_mask /\
    args_at frame st =
    Some {| arg_frame := frame;
            arg_coordinates_preprocessed := embed coordinates;
            arg_new_coordinates_processed := st_new_coordinates_processed st;
            arg_cell_states := st_cell_states st;
            arg_all_peds_preprocessed := embed all_coordinates;
            arg_hidden_states := st_cell_output st;
            arg_peds_mask := mask;
            arg_all_peds_mask := all_mask |}.
Proof.
  intros Hframe.
  destruct Hvalid as (Hin & Hmask & _ & Hall & Hallmask).
  destruct Hin as [Hin1 Hin2]. destruct Hall as [Hall1 Hall2].
  destruct (index_axis1_shape max_num_ped (Z.to_nat trajectory_size)
              (tensors_0 dataset) frame) as (co & Hco & Hlen); [|done|].
  { split; [done|]. eapply Forall_impl; [exact Hin2|]. by intros row [? _]. }
  destruct (index_axis1_shape max_num_ped (Z.to_nat trajectory_size)
              (tensors_3 dataset) frame) as (al & Hal & _); [|done|].
  { split; [done|]. eapply Forall_impl; [exact Hall2|]. by intros row [? _]. }
  destruct (index_axis2_shape _ _ _ _ frame Hmask Hframe) as (m & Hm & _).
  destruct (index_axis2_shape _ _ _ _ frame Hallmask Hframe) as (am & Ham & _).
  exists co, al, m, am. unfold initialize_args.
  rewrite Hco, Hal, Hm, Ham. done.
Qed.

(** An iteration whose next frame is in the trajectory is completed. *)
Lemma frame_body_is_Some frame st :
  (S frame < Z.to_nat trajectory_size)%nat -> is_Some (body frame st).
Proof.
  intros Hframe.
  destruct (initialize_args_valid frame st) as (co & al & m & am & _ & _ & _ & _ & _ & Ha);
    [lia|].
  destruct (initialize_args_valid (S frame) st) as (next & _ & _ & _ & Hnext & _);
    [lia|].
  unfold frame_body. rewrite Ha. cbn [mbind option_bind].
  rewrite step_initialize. cbn [mbind option_bind].
  rewrite Hnext. cbn [mbind option_bind].
  destruct (position_estimate _ next output_size _). eauto.
Qed.

Lemma decode_app fs1 fs2 st :
  run (fs1 ++ fs2) st = run fs1 st ≫= run fs2.
Proof.
  revert st. induction fs1 as [|frame fs1 IH]; intros st; [done|].
  simpl. destruct (body frame st) as [st'|]; simpl; [apply IH|done].
Qed.

Lemma decode_is_Some fs st :
  Forall (fun frame => (S frame < Z.to_nat trajectory_size)%nat) fs ->
  is_Some (run fs st).
Proof.
  intros Hfs. revert st. induction Hfs as [|frame fs Hframe _ IH]; intros st.
  - simpl. eauto.
  - simpl. destruct (frame_body_is_Some frame st Hframe) as [st' ->].
    simpl. apply IH.
Qed.

(** Every iteration appends one prediction and keeps the earlier ones. *)
Lemma decode_appends fs st st' :
  run fs st = Some st' ->
  exists new, st_new_coordinates st' = st_new_coordinates st ++ new /\
              length new = length fs.
Proof.
  revert st. induction fs as [|frame fs IH]; intros st Hrun.
  - injection Hrun as <-. exists []. by rewrite app_nil_r.
  - simpl in Hrun.
    destruct (body frame st) as [st1|] eqn:Hbody; [|discriminate].
    simpl in Hrun. destruct (IH _ Hrun) as (new & Hnew & Hlen).
    destruct (frame_body_inv _ _ _ Hbody) as (a & next & _ & _ & Hst1).
    simpl in Hst1. subst st1. simpl in Hnew.
    eexists (_ :: new). split; [|simpl; by rewrite Hlen].
    rewrite Hnew. by rewrite <- app_assoc.
Qed.

Lemma frames_Forall :
  Forall (fun frame => (S frame < Z.to_nat trajectory_size)%nat)
         (frames trajectory_size).
Proof.
  apply Forall_forall. intros frame Hin. unfold frames in Hin.
  apply elem_of_seq in Hin. lia.
Qed.

Lemma frames_split (k : nat) :
  (k <= Z.to_nat (trajectory_size - 1))%nat ->
  frames trajectory_size =
  seq 0 k ++ seq k (Z.to_nat (trajectory_size - 1) - k).
Proof.
  intros Hk. unfold frames. rewrite <- seq_app. f_equal. lia.
Qed.

(** The state after the first [k] frames: the loop continues from it, and
    the predictions it holds are the first [k] of the final sequence. *)
Lemma decode_prefix (k : nat) st0 st :
  (k <= Z.to_nat (trajectory_size - 1))%nat ->
  run (frames trajectory_size) st0 = Some st ->
  exists sk,
    run (seq 0 k) st0 = Some sk /\
    run (seq k (Z.to_nat (trajectory_size - 1) - k)) sk = Some st /\
    length (st_new_coordinates sk) = (length (st_new_coordinates st0) + k)%nat /\
    st_new_coordinates sk =
    take (length (st_new_coordinates st0) + k) (st_new_coordinates st).
Proof.
  intros Hk Hrun. rewrite (frames_split k Hk), decode_app in Hrun.
  destruct (run (seq 0 k) st0) as [sk|] eqn:Hsk; [|discriminate].
  cbn [mbind option_bind] in Hrun. exists sk. split; [done|]. split; [done|].
  destruct (decode_appends _ _ _ Hsk) as (new1 & Hnew1 & Hlen1).
  destruct (decode_appends _ _ _ Hrun) as (new2 & Hnew2 & Hlen2).
  rewrite length_seq in Hlen1.
  assert (Hlen : length (st_new_coordinates sk)
                 = (length (st_new_coordinates st0) + k)%nat).
  { rewrite Hnew1, length_app. lia. }
  split; [done|].
  rewrite Hnew2, <- Hlen. by rewrite take_app_length.
Qed.

(** The iteration of one frame inside the whole loop. *)
Lemma decode_frame (frame : nat) st0 st :
  (frame < Z.to_nat (trajectory_size - 1))%nat ->
  run (frames trajectory_size) st0 = Some st ->
  exists before after,
    run (seq 0 frame) st0 = Some before /\
    body frame before = Some after /\
    run (seq 0 (S frame)) st0 = Some after /\
    length (st_new_coordinates before)
    = (length (st_new_coordinates st0) + frame)%nat /\
    st_new_coordinates after =
    take (length (st_new_coordinates st0) + S frame) (st_new_coordinates st).
Proof.
  intros Hframe Hrun.
  destruct (decode_prefix frame st0 st) as (before & Hbefore & _ & Hlen & _);
    [lia|done|].
  destruct (decode_prefix (S frame) st0 st) as (after & Hafter & _ & _ & Htake);
    [lia|done|].
  exists before, after. repeat split; try done.
  rewrite seq_S, decode_app, Hbefore in Hafter.
  cbn [mbind option_bind] in Hafter. simpl in Hafter.
  by destruct (body frame before).
Qed.

(** The loop runs to its end from any state. *)
Lemma decode_frames_is_Some st0 : is_Some (run (frames trajectory_size) st0).
Proof. apply decode_is_Some, frames_Forall. Qed.

End Unroll.

Section Verbatim.
Context {Msk : Type}.
Variable dataset : Dataset Msk.
Variable position_estimate : @PositionEstimate vec.
Variable embedding_size : nat.
Variable weights : Weights.

Abbreviation body := (frame_body dataset position_estimate embedding_size weights).
Abbreviation run := (decode dataset position_estimate embedding_size weights).
Implicit Types (st : LoopState vec Msk) (fs : list nat).

(** When [position_estimate] hands back the next real coordinates, the
    predictions are the real coordinates of the frames that follow. *)
Lemma decode_verbatim fs st st' :
  (forall layered_output next size layer,
     (position_estimate layered_output next size layer).1 = next) ->
  run fs st = Some st' ->
  exists new,
    mapM (fun frame => index_axis1 (tensors_0 dataset) (S frame)) fs = Some new /\
    st_new_coordinates st' = st_new_coordinates st ++ new.
Proof.
  intros Hverbatim. revert st. induction fs as [|frame fs IH]; intros st Hrun.
  - injection Hrun as <-. exists []. by rewrite app_nil_r.
  - simpl in Hrun.
    destruct (body frame st) as [st1|] eqn:Hbody; [|discriminate].
    cbn [mbind option_bind] in Hrun.
    destruct (IH _ Hrun) as (new & Hnew & Hst').
    destruct (frame_body_inv _ _ _ _ _ _ _ Hbody) as (a & next & _ & Hnext & Hst1).
    cbv zeta in Hst1. rewrite Hverbatim in Hst1. subst st1. simpl in Hst'.
    exists (next :: new). split.
    + rewrite mapM_Some. constructor; [exact Hnext|]. by apply mapM_Some.
    + rewrite Hst'. by rewrite <- app_assoc.
Qed.

End Verbatim.

(** ** The predicted-coordinate sequence *)

(** C2.  For every valid dataset element and [trajectory_size >= 2] the
    frame loop runs to its end, and [self.new_coordinates], before it is
    stacked, has exactly [trajectory_size - 1] entries.  They are in time
    order, one per frame index in [0, trajectory_size - 2]: the iteration
    of [frame] starts with [frame] entries and leaves the first
    [frame + 1] entries of the final sequence, and entry [frame] is what
    [position_estimate] returned for the next real coordinates
    [input_data[:, frame + 1]]. *)
Theorem new_coordinates_one_entry_per_frame {V Msk : Type}
    (dataset : Dataset Msk) (helper : Helper)
    (position_estimate : @PositionEstimate V)
    (pooling_module : option (Pooling Msk))
    (lstm_size max_num_ped : nat) (trajectory_size : Z) (embedding_size : nat)
    (weights : Weights) :
  valid_dataset max_num_ped trajectory_size dataset ->
  2 <= trajectory_size ->
  let run := decode dataset position_estimate embedding_size weights in
  let start := initial_state helper pooling_module lstm_size max_num_ped weights in
  exists st,
    run (frames trajectory_size) start = Some st /\
    length (st_new_coordinates st) = Z.to_nat (trajectory_size - 1) /\
    forall frame, (frame < Z.to_nat (trajectory_size - 1))%nat ->
      exists before after layered_output next,
        run (seq 0 frame) start = Some before /\
        length (st_new_coordinates before) = frame /\
        frame_body dataset position_estimate embedding_size weights frame before
        = Some after /\
        st_new_coordinates after = take (S frame) (st_new_coordinates st) /\
        index_axis1 (tensors_0 dataset) (S frame) = Some next /\
        st_new_coordinates st !! frame =
        Some (position_estimate layered_output next output_size
                (Dense_call (the_coordinates_layer embedding_size weights))).1.
Proof.
  intros Hvalid HT run start.
  destruct (decode_frames_is_Some dataset position_estimate embedding_size
              weights max_num_ped trajectory_size Hvalid start) as [st Hst].
  exists st. split; [exact Hst|]. split.
  - destruct (decode_appends _ _ _ _ _ _ _ Hst) as (new & Hnew & Hlen).
    rewrite Hnew. simpl. rewrite Hlen. unfold frames. by rewrite length_seq.
  - intros frame Hframe.
    destruct (decode_frame _ _ _ _ _ frame start st Hframe Hst)
      as (before & after & Hbefore & Hbody & _ & Hlen & Htake).
    simpl in Hlen, Htake.
    destruct (frame_body_inv _ _ _ _ _ _ _ Hbody) as (a & next & _ & Hnext & Hafter).
    cbv zeta in Hafter.
    eexists before, after, _, next. repeat split; try done.
    rewrite <- (lookup_take_lt _ (S frame)) by lia.
    rewrite <- Htake, Hafter. simpl.
    rewrite <- Hlen at 1. by rewrite list_lookup_middle.
Qed.

(** ** The loss *)

Lemma mul_comm (x y : float32) : mul x y = mul y x.
Proof.
  destruct x as [sx|sx| |sx mx ex], y as [sy|sy| |sy my ey];
    unfold mul; simpl; try reflexivity;
    try (by rewrite xorb_comm).
  by rewrite xorb_comm, Pos.mul_comm, Z.add_comm.
Qed.

(** A quotient by [+0.0] is an infinity or not a number, and stays so
    whatever is added to it. *)
Lemma div_zero_not_finite (x y : float32) :
  is_finite (add (div x zero) y) = false.
Proof.
  destruct x as [sx|sx| |sx mx ex]; simpl;
    destruct y as [sy|sy| |sy my ey]; simpl; try reflexivity;
    try (by destruct sx); try (by destruct sx, sy).
Qed.

Section Loss.
Context {V Msk : Type}.
Variable dataset : Dataset Msk.
Variable loss_function : @LossFunction V.
Variable prediction_time : Z.
Variable l2_norm : float32.
Variable tvars : list TFVariable.

(** With a variable that is not a bias the regulariser is the stated one,
    half the squared norm being the norm. *)
Lemma l2_loss_stated :
  has_weight_variable tvars ->
  l2_loss l2_norm tvars =
  Some (stated_regularization half_squared_norm l2_norm tvars).
Proof.
  unfold has_weight_variable, l2_loss, stated_regularization, is_bias.
  intros Hvar.
  destruct (List.filter _ tvars) as [|v rest]; [done|].
  simpl. by rewrite mul_comm.
Qed.

(** The slice of the loss, for counts in their ranges. *)
Lemma loss_slice_counts (stacked : list (list V)) :
  1 <= prediction_time -> 0 <= tensors_2 dataset ->
  loss_slice dataset prediction_time stacked =
  map (first_slots (Z.to_nat (tensors_2 dataset)))
      (last_steps (Z.to_nat prediction_time) stacked).
Proof.
  intros Hp Hn. unfold loss_slice, last_steps, first_slots.
  rewrite slice_from_neg by done.
  apply map_ext. intros row. by apply slice_to_nonneg.
Qed.

(** The slots beyond the count do not reach the loss function. *)
Lemma loss_slice_first_slots (stacked : list (list V)) :
  0 <= tensors_2 dataset ->
  loss_slice dataset prediction_time stacked =
  slice_from (- prediction_time)
             (map (take (Z.to_nat (tensors_2 dataset))) stacked).
Proof.
  intros Hn. unfold loss_slice. rewrite slice_from_map.
  apply map_ext. intros row. by apply slice_to_nonneg.
Qed.

End Loss.

(** ** The constructed model *)

Section Construction.
Context {V Msk : Type}.
Variable dataset : Dataset Msk.
Variable helper : Helper.
Variable position_estimate : @PositionEstimate V.
Variable loss_function : @LossFunction V.
Variable pooling_module : option (Pooling Msk).
Variable lstm_size max_num_ped : nat.
Variable prediction_time trajectory_size : Z.
Variable embedding_size : nat.
Variable l2_norm : float32.
Variable weights : Weights.
Variable tvars : list TFVariable.

Abbreviation start :=
  (initial_state (V:=V) helper pooling_module lstm_size max_num_ped weights).
Abbreviation unroll :=
  (decode dataset position_estimate embedding_size weights
          (frames trajectory_size) start).
Abbreviation construct :=
  (SocialModel_init dataset helper position_estimate loss_function
     pooling_module lstm_size max_num_ped prediction_time trajectory_size
     embedding_size l2_norm weights tvars).

(** The constructor after a completed loop, with a regulariser. *)
Lemma SocialModel_init_Some st l2 :
  unroll = Some st ->
  l2_loss l2_norm tvars = Some l2 ->
  exists m,
    construct = Some m /\
    new_coordinates m = st_new_coordinates st /\
    cell_states m = st_cell_states st /\
    loss m =
    add (div (loss_function
                (loss_slice dataset prediction_time (st_new_coordinates st)))
             (of_Z (tensors_2 dataset)))
        l2.
Proof.
  intros Hst Hl2. unfold SocialModel_init, calculate_loss.
  rewrite Hst. cbn [mbind option_bind]. rewrite Hl2. cbn [mbind option_bind].
  eexists. split; [reflexivity|]. done.
Qed.

(** A valid dataset element and a variable to regularise are enough for
    the constructor to return. *)
Lemma SocialModel_init_valid :
  valid_dataset max_num_ped trajectory_size dataset ->
  has_weight_variable tvars ->
  exists m,
    construct = Some m /\
    length (new_coordinates m) = Z.to_nat (trajectory_size - 1) /\
    loss m =
    add (div (loss_function
                (loss_slice dataset prediction_time (new_coordinates m)))
             (of_Z (tensors_2 dataset)))
        (stated_regularization half_squared_norm l2_norm tvars).
Proof.
  intros Hvalid Hvar.
  destruct (decode_frames_is_Some dataset position_estimate embedding_size
              weights max_num_ped trajectory_size Hvalid start) as [st Hst].
  destruct (SocialModel_init_Some st _ Hst (l2_loss_stated l2_norm tvars Hvar))
    as (m & Hm & Hnew & _ & Hloss).
  exists m. split; [exact Hm|]. rewrite Hnew. split; [|exact Hloss].
  destruct (decode_appends _ _ _ _ _ _ _ Hst) as (new & Hst_new & Hlen).
  rewrite Hst_new. simpl. rewrite Hlen. unfold frames. by rewrite length_seq.
Qed.

End Construction.

(** C1, as amended.  For a valid dataset element, [trajectory_size >= 2],
    [prediction_time >= 1] and a trainable variable that is not a bias, the
    final loss is the loss function on the last [prediction_time] steps and
    the first [num_peds_frame] slots of the stacked predictions, divided by
    [num_peds_frame] cast to [float32], plus [l2_norm] times the sum, over
    the trainable variables whose name does not contain "bias", of half the
    squared norm. *)
Theorem final_loss_half_squared_norms {V Msk : Type}
    (dataset : Dataset Msk) (helper : Helper)
    (position_estimate : @PositionEstimate V) (loss_function : @LossFunction V)
    (pooling_module : option (Pooling Msk)) (lstm_size max_num_ped : nat)
    (prediction_time trajectory_size : Z) (embedding_size : nat)
    (l2_norm : float32) (weights : Weights) (tvars : list TFVariable) :
  valid_dataset max_num_ped trajectory_size dataset ->
  2 <= trajectory_size ->
  1 <= prediction_time ->
  has_weight_variable tvars ->
  exists m,
    SocialModel_init dataset helper position_estimate loss_function
      pooling_module lstm_size max_num_ped prediction_time trajectory_size
      embedding_size l2_norm weights tvars = Some m /\
    loss m = stated_loss half_squared_norm loss_function prediction_time
               (num_peds_frame m) l2_norm tvars (new_coordinates m).
Proof.
  intros Hvalid _ Hp Hvar.
  destruct (SocialModel_init_valid dataset helper position_estimate
              loss_function pooling_module lstm_size max_num_ped
              prediction_time trajectory_size embedding_size l2_norm weights
              tvars Hvalid Hvar) as (m & Hm & _ & Hloss).
  exists m. split; [exact Hm|].
  assert (Hn : num_peds_frame m = tensors_2 dataset).
  { unfold SocialModel_init in Hm.
    destruct (decode _ _ _ _ _ _); [|discriminate]. cbn [mbind option_bind] in Hm.
    destruct (calculate_loss _ _ _ _ _ _); [|discriminate].
    by injection Hm as <-. }
  rewrite Hloss, Hn. unfold stated_loss.
  rewrite loss_slice_counts; [done|done|]. by destruct Hvalid as (_ & _ & [? _] & _).
Qed.

(** The dataset element of the scenario is valid for every count of
    pedestrians up to two. *)
Lemma scenario_dataset_valid (num_peds : Z) :
  0 <= num_peds <= 2 -> valid_dataset 2 3 (Scenario.dataset num_peds).
Proof.
  intros Hn. unfold valid_dataset, has_shape3, has_shape2. simpl.
  repeat split; try lia; repeat constructor.
Qed.

Lemma scenario_has_weight_variable : has_weight_variable Scenario.tvars.
Proof. unfold has_weight_variable. vm_compute. discriminate. Qed.

Lemma new_coordinates_one_entry_per_frame_witness :
  valid_dataset 2 3 (Scenario.dataset 2) /\ 2 <= 3 /\
  exists st,
    decode (Scenario.dataset 2) Scenario.position_verbatim 3 Scenario.weights
           (frames 3)
           (initial_state Scenario.helper_ground_truth
              (Some Scenario.pooling_zeros) 4 2 Scenario.weights) = Some st /\
    length (st_new_coordinates st) = 2%nat.
Proof.
  assert (Hvalid : valid_dataset 2 3 (Scenario.dataset 2))
    by (apply scenario_dataset_valid; lia).
  assert (HT : 2 <= 3) by lia.
  split; [exact Hvalid|]. split; [exact HT|].
  destruct (new_coordinates_one_entry_per_frame
              (Scenario.dataset 2) Scenario.helper_ground_truth
              Scenario.position_verbatim (Some Scenario.pooling_zeros)
              4 2 3 3 Scenario.weights Hvalid HT) as (st & Hst & Hlen & _).
  exists st. split; [exact Hst|exact Hlen].
Defined.

(** C1, as stated, fails on the regulariser: with one weight variable
    [[1.0]], [l2_norm = 1.0] and a loss function that is zero,
    [tf.nn.l2_loss] contributes [0.5] to the loss, and the stated sum of
    squared norms would contribute [1.0]. *)
Lemma final_loss_squared_norms_counterexample :
  exists m,
    Scenario.model Scenario.zero_loss 2 2 one = Some m /\
    loss m = div one two /\
    stated_loss squared_norm Scenario.zero_loss 2 (num_peds_frame m) one
                Scenario.tvars (new_coordinates m) = one /\
    loss m <> stated_loss squared_norm Scenario.zero_loss 2 (num_peds_frame m)
                one Scenario.tvars (new_coordinates m).
Proof.
  eexists. split; [vm_compute; reflexivity|].
  split; [vm_compute; reflexivity|].
  split; [vm_compute; reflexivity|].
  vm_compute. discriminate.
Qed.

Lemma final_loss_half_squared_norms_witness :
  valid_dataset 2 3 (Scenario.dataset 2) /\ 2 <= 3 /\ 1 <= 2 /\
  has_weight_variable Scenario.tvars /\
  exists m,
    Scenario.model Scenario.reduce_sum 2 2 one = Some m /\
    loss m = stated_loss half_squared_norm Scenario.reduce_sum 2
               (num_peds_frame m) one Scenario.tvars (new_coordinates m).
Proof.
  assert (Hvalid : valid_dataset 2 3 (Scenario.dataset 2))
    by (apply scenario_dataset_valid; lia).
  assert (HT : 2 <= 3) by lia.
  assert (Hp : 1 <= 2) by lia.
  assert (Hvar : has_weight_variable Scenario.tvars)
    by exact scenario_has_weight_variable.
  repeat (split; [assumption|]).
  exact (final_loss_half_squared_norms
           (Scenario.dataset 2) Scenario.helper_ground_truth
           Scenario.position_verbatim Scenario.reduce_sum
           (Some Scenario.pooling_zeros) 4 2 2 3 3 one Scenario.weights
           Scenario.tvars Hvalid HT Hp Hvar).
Defined.

(** ** The loss aggregator and the padding slots *)

(** C7.  Two stacked prediction sequences that agree, step by step, on
    the first [num_peds_frame] slots have the same aggregated loss,
    whatever their padding slots hold and in whatever order. *)
Theorem loss_ignores_padding_slots {V Msk : Type}
    (dataset : Dataset Msk) (loss_function : @LossFunction V)
    (prediction_time : Z) (l2_norm : float32) (tvars : list TFVariable)
    (stacked1 stacked2 : list (list V)) :
  0 <= tensors_2 dataset ->
  Forall2 (fun step1 step2 =>
             take (Z.to_nat (tensors_2 dataset)) step1
             = take (Z.to_nat (tensors_2 dataset)) step2)
          stacked1 stacked2 ->
  calculate_loss dataset loss_function prediction_time l2_norm tvars stacked1
  = calculate_loss dataset loss_function prediction_time l2_norm tvars stacked2.
Proof.
  intros Hn Hagree.
  assert (Hmap : map (take (Z.to_nat (tensors_2 dataset))) stacked1
                 = map (take (Z.to_nat (tensors_2 dataset))) stacked2).
  { induction Hagree as [|step1 step2 rest1 rest2 Hstep _ IH]; [done|].
    simpl. by rewrite Hstep, IH. }
  unfold calculate_loss.
  by rewrite !loss_slice_first_slots, Hmap by done.
Qed.

Lemma loss_ignores_padding_slots_witness :
  0 <= tensors_2 (Scenario.dataset 1) /\
  Forall2 (fun step1 step2 =>
             take (Z.to_nat (tensors_2 (Scenario.dataset 1))) step1
             = take (Z.to_nat (tensors_2 (Scenario.dataset 1))) step2)
          Scenario.padded_1 Scenario.padded_2 /\
  calculate_loss (Scenario.dataset 1) Scenario.reduce_sum 8 one Scenario.tvars
                 Scenario.padded_1
  = calculate_loss (Scenario.dataset 1) Scenario.reduce_sum 8 one Scenario.tvars
                   Scenario.padded_2.
Proof.
  assert (Hn : 0 <= tensors_2 (Scenario.dataset 1)) by (simpl; lia).
  assert (Hagree :
    Forall2 (fun step1 step2 =>
               take (Z.to_nat (tensors_2 (Scenario.dataset 1))) step1
               = take (Z.to_nat (tensors_2 (Scenario.dataset 1))) step2)
            Scenario.padded_1 Scenario.padded_2)
    by (repeat constructor).
  split; [exact Hn|]. split; [exact Hagree|].
  exact (loss_ignores_padding_slots (Scenario.dataset 1) Scenario.reduce_sum 8
           one Scenario.tvars Scenario.padded_1 Scenario.padded_2 Hn Hagree).
Defined.

(** ** The steps that reach the loss *)

(** C9, as amended.  For [prediction_time >= 1] (and a valid dataset
    element, [trajectory_size >= 2], a variable to regularise) the slice
    [[-prediction_time:]] of the stacked predictions holds the trailing
    [min(prediction_time, trajectory_size - 1)] steps; when
    [prediction_time] exceeds [trajectory_size - 1] it is all the
    [trajectory_size - 1] steps and the constructor still returns, with the
    loss computed from them. *)
Theorem loss_slice_trailing_steps {V Msk : Type}
    (dataset : Dataset Msk) (helper : Helper)
    (position_estimate : @PositionEstimate V) (loss_function : @LossFunction V)
    (pooling_module : option (Pooling Msk)) (lstm_size max_num_ped : nat)
    (prediction_time trajectory_size : Z) (embedding_size : nat)
    (l2_norm : float32) (weights : Weights) (tvars : list TFVariable) :
  valid_dataset max_num_ped trajectory_size dataset ->
  2 <= trajectory_size ->
  1 <= prediction_time ->
  has_weight_variable tvars ->
  exists m l2,
    SocialModel_init dataset helper position_estimate loss_function
      pooling_module lstm_size max_num_ped prediction_time trajectory_size
      embedding_size l2_norm weights tvars = Some m /\
    length (new_coordinates m) = Z.to_nat (trajectory_size - 1) /\
    let steps := slice_from (- prediction_time) (new_coordinates m) in
    steps = last_steps (Z.to_nat (Z.min prediction_time (trajectory_size - 1)))
                       (new_coordinates m) /\
    length steps = Z.to_nat (Z.min prediction_time (trajectory_size - 1)) /\
    (trajectory_size - 1 < prediction_time -> steps = new_coordinates m) /\
    l2_loss l2_norm tvars = Some l2 /\
    loss m = add (div (loss_function (map (slice_to (tensors_2 dataset)) steps))
                      (of_Z (tensors_2 dataset)))
                 l2.
Proof.
  intros Hvalid HT Hp Hvar.
  destruct (SocialModel_init_valid dataset helper position_estimate
              loss_function pooling_module lstm_size max_num_ped
              prediction_time trajectory_size embedding_size l2_norm weights
              tvars Hvalid Hvar) as (m & Hm & Hlen & Hloss).
  exists m, (stated_regularization half_squared_norm l2_norm tvars).
  split; [exact Hm|]. split; [exact Hlen|].
  cbv zeta. rewrite slice_from_neg by done. unfold last_steps.
  rewrite length_drop, Hlen.
  split; [f_equal; lia|]. split; [lia|]. split.
  - intros Hall. replace (_ - _)%nat with 0%nat by lia. done.
  - split; [by apply l2_loss_stated|].
    rewrite Hloss. unfold loss_slice. rewrite slice_from_neg by done.
    by rewrite Hlen.
Qed.

Lemma loss_slice_trailing_steps_witness :
  valid_dataset 2 3 (Scenario.dataset 2) /\ 2 <= 3 /\ 1 <= 8 /\
  has_weight_variable Scenario.tvars /\
  exists m,
    Scenario.model Scenario.reduce_sum 8 2 one = Some m /\
    slice_from (- 8) (new_coordinates m) = new_coordinates m /\
    length (slice_from (- 8) (new_coordinates m)) = 2%nat.
Proof.
  assert (Hvalid : valid_dataset 2 3 (Scenario.dataset 2))
    by (apply scenario_dataset_valid; lia).
  assert (HT : 2 <= 3) by lia.
  assert (Hp : 1 <= 8) by lia.
  assert (Hvar : has_weight_variable Scenario.tvars)
    by exact scenario_has_weight_variable.
  repeat (split; [assumption|]).
  destruct (loss_slice_trailing_steps
              (Scenario.dataset 2) Scenario.helper_ground_truth
              Scenario.position_verbatim Scenario.reduce_sum
              (Some Scenario.pooling_zeros) 4 2 8 3 3 one Scenario.weights
              Scenario.tvars Hvalid HT Hp Hvar)
    as (m & l2 & Hm & _ & _ & Hlen & Hall & _).
  exists m. split; [exact Hm|]. split; [apply Hall; lia|exact Hlen].
Defined.

(** C9, as stated, fails at [prediction_time = 0]: [-0] is [0], the slice
    [[-0:]] is the whole sequence, and both steps of the scenario reach the
    loss (their sum over the two pedestrians is 22, the loss 11), where
    [min(0, 3 - 1)] steps are none. *)
Lemma prediction_time_zero_counterexample :
  exists m,
    Scenario.model Scenario.reduce_sum 0 2 zero = Some m /\
    slice_from (- 0) (new_coordinates m) = new_coordinates m /\
    length (slice_from (- 0) (new_coordinates m)) = 2%nat /\
    length (slice_from (- 0) (new_coordinates m))
    <> Z.to_nat (Z.min 0 (3 - 1)) /\
    loss m = of_Z 11.
Proof.
  eexists. split; [vm_compute; reflexivity|].
  split; [apply slice_from_zero|]. split; [reflexivity|].
  split; [vm_compute; discriminate|]. vm_compute. reflexivity.
Qed.

(** ** No active pedestrian *)

(** C6, as amended.  With [num_peds_frame = 0] the constructor returns and
    the normalisation is the plain [float32] division by [0.0], neither
    failing nor guarded: no slot reaches the loss function, its value is
    divided by [+0.0], and the final loss is an infinity or not a number. *)
Theorem zero_count_divides_by_zero {V Msk : Type}
    (dataset : Dataset Msk) (helper : Helper)
    (position_estimate : @PositionEstimate V) (loss_function : @LossFunction V)
    (pooling_module : option (Pooling Msk)) (lstm_size max_num_ped : nat)
    (prediction_time trajectory_size : Z) (embedding_size : nat)
    (l2_norm : float32) (weights : Weights) (tvars : list TFVariable) :
  valid_dataset max_num_ped trajectory_size dataset ->
  2 <= trajectory_size ->
  has_weight_variable tvars ->
  tensors_2 dataset = 0 ->
  exists m l2,
    SocialModel_init dataset helper position_estimate loss_function
      pooling_module lstm_size max_num_ped prediction_time trajectory_size
      embedding_size l2_norm weights tvars = Some m /\
    Forall (fun step => step = [])
           (loss_slice dataset prediction_time (new_coordinates m)) /\
    l2_loss l2_norm tvars = Some l2 /\
    loss m =
    add (div (loss_function
                (loss_slice dataset prediction_time (new_coordinates m)))
             zero)
        l2 /\
    is_finite (loss m) = false.
Proof.
  intros Hvalid _ Hvar Hzero.
  destruct (SocialModel_init_valid dataset helper position_estimate
              loss_function pooling_module lstm_size max_num_ped
              prediction_time trajectory_size embedding_size l2_norm weights
              tvars Hvalid Hvar) as (m & Hm & _ & Hloss).
  exists m, (stated_regularization half_squared_norm l2_norm tvars).
  split; [exact Hm|]. split.
  - unfold loss_slice. rewrite Hzero. apply Forall_forall.
    intros step Hstep. apply list_elem_of_fmap in Hstep as (row & -> & _).
    by rewrite slice_to_nonneg.
  - split; [by apply l2_loss_stated|].
    rewrite Hzero in Hloss. change (of_Z 0) with zero in Hloss.
    split; [exact Hloss|]. rewrite Hloss. apply div_zero_not_finite.
Qed.

Lemma zero_count_divides_by_zero_witness :
  valid_dataset 2 3 (Scenario.dataset 0) /\ 2 <= 3 /\
  has_weight_variable Scenario.tvars /\
  tensors_2 (Scenario.dataset 0) = 0 /\
  exists m,
    Scenario.model Scenario.reduce_sum 8 0 one = Some m /\
    is_finite (loss m) = false.
Proof.
  assert (Hvalid : valid_dataset 2 3 (Scenario.dataset 0))
    by (apply scenario_dataset_valid; lia).
  assert (HT : 2 <= 3) by lia.
  assert (Hvar : has_weight_variable Scenario.tvars)
    by exact scenario_has_weight_variable.
  assert (Hzero : tensors_2 (Scenario.dataset 0) = 0) by reflexivity.
  repeat (split; [assumption|]).
  destruct (zero_count_divides_by_zero
              (Scenario.dataset 0) Scenario.helper_ground_truth
              Scenario.position_verbatim Scenario.reduce_sum
              (Some Scenario.pooling_zeros) 4 2 8 3 3 one Scenario.weights
              Scenario.tvars Hvalid HT Hvar Hzero)
    as (m & l2 & Hm & _ & _ & _ & Hinf).
  exists m. split; [exact Hm|exact Hinf].
Defined.

(** C6, as stated, fails: in the scenario with no active pedestrian the
    constructor returns a model, so the normalisation did not fail, and
    its loss is not a number, so the division was not guarded. *)
Lemma zero_count_policy_counterexample :
  (exists m, Scenario.model Scenario.reduce_sum 8 0 one = Some m /\
             loss m = S754_nan) /\
  ~ zero_count_policy (Scenario.model Scenario.reduce_sum 8 0 one).
Proof.
  split.
  - eexists. split; [vm_compute; reflexivity|reflexivity].
  - intros [Hfail | (m & Hm & Hfinite)].
    + vm_compute in Hfail. discriminate.
    + vm_compute in Hm. injection Hm as <-. discriminate.
Qed.

(** ** The end-to-end scenario *)

(** A list of a known length is the list of its entries. *)
Ltac explicit_list l H :=
  repeat (destruct l as [|? l]; [discriminate H|simpl in H]);
  destruct l; [clear H|discriminate H].

Lemma shape_2_3 {A} (t : list (list (list A))) k :
  has_shape3 2 3 k t ->
  exists a0 a1 a2 b0 b1 b2, t = [ [a0; a1; a2]; [b0; b1; b2] ].
Proof.
  intros [Hlen Hrows].
  explicit_list t Hlen.
  apply Forall_cons in Hrows as [[Ha _] Hrows].
  apply Forall_cons in Hrows as [[Hb _] _].
  explicit_list l Ha. explicit_list l0 Hb. by eauto 7.
Qed.

(** C3, as amended.  In the scenario ([max_num_ped = 2],
    [trajectory_size = 3], [lstm_size = 4], [embedding_size = 3], the
    helper returning the ground truth, pooling returning zeros,
    [position_estimate] returning the real next coordinates) the predicted
    sequence is [input_data[:, 1:, :]] transposed to [[T-1, N, 2]], for
    every valid dataset element, every loss function and all weights.  With
    zero regularisation the training loss is the loss function on the slice
    of this sequence divided by [num_peds_frame]: it is zero when the loss
    function returns zero there and a pedestrian is active. *)
Theorem scenario_prediction_and_loss {Msk : Type}
    (dataset : Dataset Msk) (loss_function : @LossFunction vec)
    (prediction_time : Z) (l2_norm : float32) (weights : Weights)
    (tvars : list TFVariable) :
  valid_dataset 2 3 dataset ->
  l2_loss l2_norm tvars = Some zero ->
  exists m,
    SocialModel_init dataset Scenario.helper_ground_truth
      Scenario.position_verbatim loss_function (Some Scenario.pooling_zeros)
      4 2 prediction_time 3 3 l2_norm weights tvars = Some m /\
    new_coordinates m = transpose_01 (map (slice_from 1) (input_data m)) /\
    input_data m = tensors_0 dataset /\
    let value :=
      loss_function (loss_slice dataset prediction_time (new_coordinates m)) in
    loss m = add (div value (of_Z (tensors_2 dataset))) zero /\
    (1 <= tensors_2 dataset -> value = zero -> loss m = zero).
Proof.
  intros Hvalid Hl2.
  destruct (decode_frames_is_Some dataset Scenario.position_verbatim 3 weights
              2 3 Hvalid
              (initial_state Scenario.helper_ground_truth
                 (Some Scenario.pooling_zeros) 4 2 weights)) as [st Hst].
  destruct (SocialModel_init_Some dataset Scenario.helper_ground_truth
              Scenario.position_verbatim loss_function
              (Some Scenario.pooling_zeros) 4 2 prediction_time 3 3 l2_norm
              weights tvars st zero Hst Hl2) as (m & Hm & Hnew & _ & Hloss).
  assert (Hin : input_data m = tensors_0 dataset).
  { unfold SocialModel_init in Hm. rewrite Hst in Hm.
    cbn [mbind option_bind] in Hm.
    destruct (calculate_loss _ _ _ _ _ _); [|discriminate].
    by injection Hm as <-. }
  exists m. split; [exact Hm|]. split; [|split; [exact Hin|]].
  - destruct (decode_verbatim dataset Scenario.position_verbatim 3 weights
                _ _ _ (fun _ _ _ _ => eq_refl) Hst)
      as (new & Hmap & Hst_new).
    rewrite Hnew, Hst_new, Hin. simpl.
    destruct Hvalid as (Hshape & _).
    destruct (shape_2_3 _ _ Hshape) as (a0 & a1 & a2 & b0 & b1 & b2 & Ht).
    rewrite Ht in Hmap |- *. vm_compute in Hmap. injection Hmap as <-.
    reflexivity.
  - cbv zeta. rewrite Hnew. split; [exact Hloss|].
    intros Hactive Hvalue. rewrite Hloss, Hvalue.
    destruct Hvalid as (_ & _ & [_ Hcount] & _).
    assert (Hn : tensors_2 dataset = 1 \/ tensors_2 dataset = 2) by lia.
    by destruct Hn as [-> | ->].
Qed.

Lemma scenario_prediction_and_loss_witness :
  valid_dataset 2 3 (Scenario.dataset 2) /\
  l2_loss zero Scenario.tvars = Some zero /\
  exists m,
    Scenario.model Scenario.zero_loss 2 2 zero = Some m /\
    new_coordinates m =
    [ [Scenario.p 2 1; Scenario.p 1 6]; [Scenario.p 3 1; Scenario.p 1 7] ] /\
    loss m = zero.
Proof.
  assert (Hvalid : valid_dataset 2 3 (Scenario.dataset 2))
    by (apply scenario_dataset_valid; lia).
  assert (Hl2 : l2_loss zero Scenario.tvars = Some zero) by reflexivity.
  split; [exact Hvalid|]. split; [exact Hl2|].
  destruct (scenario_prediction_and_loss (Scenario.dataset 2)
              Scenario.zero_loss 2 zero Scenario.weights Scenario.tvars
              Hvalid Hl2) as (m & Hm & Hnew & Hin & _ & Hzero).
  exists m. split; [exact Hm|]. split.
  - rewrite Hnew, Hin. reflexivity.
  - apply Hzero; [simpl; lia|reflexivity].
Defined.

(** C3, as stated, fails on the loss: the scenario fixes no loss function,
    and with [tf.reduce_sum] the predicted sequence is the transposed
    ground truth, the regularisation term is zero, and the training loss
    is 11, half the sum 22 of the predicted coordinates. *)
Lemma scenario_loss_counterexample :
  exists m,
    Scenario.model Scenario.reduce_sum 2 2 zero = Some m /\
    new_coordinates m = transpose_01 (map (slice_from 1) (input_data m)) /\
    l2_loss zero Scenario.tvars = Some zero /\
    loss m = of_Z 11 /\
    loss m <> zero.
Proof.
  eexists. split; [vm_compute; reflexivity|].
  split; [vm_compute; reflexivity|]. split; [reflexivity|].
  split; [vm_compute; reflexivity|]. vm_compute. discriminate.
Qed.

(** ** Shapes of the recurrent state *)

Lemma affine_length units kernel bias x :
  length (affine units kernel bias x) = units.
Proof. unfold affine. by rewrite length_map, length_seq. Qed.

Lemma Dense_call_length l inputs : length (Dense_call l inputs) = length inputs.
Proof. unfold Dense_call. by rewrite length_map. Qed.

(** The gates of a slot are [num_units] wide; so are the new memory and the
    new output when the memory was. *)
Lemma LSTMCell_row_length cell x c_prev m_prev :
  length c_prev = num_units cell ->
  length (LSTMCell_row cell x c_prev m_prev).1 = num_units cell /\
  length (LSTMCell_row cell x c_prev m_prev).2 = num_units cell.
Proof.
  intros Hc. unfold LSTMCell_row. cbv zeta. simpl fst. simpl snd.
  repeat (rewrite ?length_zip_with, ?length_map, ?length_take, ?length_drop,
            ?affine_length, ?Hc).
  clear Hc. generalize (num_units cell). intros u. split; lia.
Qed.

(** The cell keeps the shape [[rows, num_units]] of its state when it is
    fed one input row per slot. *)
Lemma LSTMCell_call_shape cell rows inputs state :
  length inputs = rows ->
  has_shape2 rows (num_units cell) (c state) ->
  has_shape2 rows (num_units cell) (h state) ->
  let r := LSTMCell_call cell inputs state in
  has_shape2 rows (num_units cell) r.1 /\
  has_shape2 rows (num_units cell) (c r.2) /\
  has_shape2 rows (num_units cell) (h r.2).
Proof.
  intros Hin [Hc1 Hc2] [Hh1 Hh2]. unfold LSTMCell_call. cbv zeta. simpl.
  set (slots := zip_with _ inputs _).
  assert (Hlen : length slots = rows).
  { unfold slots. rewrite length_zip_with, length_zip.
    unfold mat, vec in *. lia. }
  assert (Hslots : Forall (fun cm => length cm.1 = num_units cell /\
                                     length cm.2 = num_units cell) slots).
  { unfold slots. clear Hlen slots Hin Hc1 Hh1 Hh2.
    revert inputs. generalize (h state).
    induction Hc2 as [|c_prev cs Hc_prev _ IH]; intros hs inputs.
    - destruct inputs; constructor.
    - destruct inputs as [|x inputs]; [constructor|].
      destruct hs as [|m_prev hs]; [constructor|].
      simpl. constructor; [by apply LSTMCell_row_length|apply IH]. }
  unfold has_shape2. rewrite !length_map.
  repeat split; try done; apply Forall_forall; intros row Hrow;
    apply list_elem_of_fmap in Hrow as (cm & -> & Hcm);
    by destruct (proj1 (Forall_forall _ _) Hslots cm Hcm).
Qed.

Section Decoding.
Context {V Msk : Type}.
Variable dataset : Dataset Msk.
Variable helper : Helper.
Variable position_estimate : @PositionEstimate V.
Variable pooling_module : option (Pooling Msk).
Variable lstm_size max_num_ped : nat.
Variable trajectory_size : Z.
Variable embedding_size : nat.
Variable weights : Weights.
Hypothesis Hvalid : valid_dataset max_num_ped trajectory_size dataset.

Abbreviation body := (frame_body dataset position_estimate embedding_size weights).
Abbreviation run := (decode dataset position_estimate embedding_size weights).
Abbreviation start :=
  (initial_state (V:=V) helper pooling_module lstm_size max_num_ped weights).
Abbreviation embed := (Dense_call (the_coordinates_layer embedding_size weights)).
Abbreviation same_decoder := (same_decoder helper pooling_module lstm_size weights).
Abbreviation state_shape := (state_shape (V:=V) (Msk:=Msk) lstm_size max_num_ped).
Implicit Types (st : LoopState V Msk).

Lemma start_same_decoder : same_decoder start.
Proof. by repeat split. Qed.

Lemma start_state_shape : state_shape start.
Proof. repeat split; apply tf_zeros_shape. Qed.

Lemma frame_body_same_decoder frame st st' :
  same_decoder st -> body frame st = Some st' -> same_decoder st'.
Proof.
  intros Hsame Hbody.
  destruct (frame_body_inv _ _ _ _ _ _ _ Hbody) as (a & next & _ & _ & ->).
  exact Hsame.
Qed.

(** The first iteration: what the decoder is initialised with, and where
    the loop goes on. *)
Lemma first_frame :
  2 <= trajectory_size ->
  exists after coordinates all_coordinates mask all_mask,
    index_axis1 (tensors_0 dataset) 0 = Some coordinates /\
    body 0%nat start = Some after /\
    run (frames trajectory_size) start
    = run (seq 1 (Z.to_nat (trajectory_size - 1) - 1)) after /\
    same_decoder after /\
    initialize_args dataset embedding_size weights 0 start
    = dec_initialized (st_decoder after) /\
    dec_initialized (st_decoder after) =
    Some {| arg_frame := 0;
            arg_coordinates_preprocessed := embed coordinates;
            arg_new_coordinates_processed := None;
            arg_cell_states := zero_state (the_cell lstm_size weights) max_num_ped;
            arg_all_peds_preprocessed := embed all_coordinates;
            arg_hidden_states := tf_zeros max_num_ped lstm_size;
            arg_peds_mask := mask;
            arg_all_peds_mask := all_mask |}.
Proof.
  intros HT.
  destruct (initialize_args_valid dataset embedding_size weights max_num_ped
              trajectory_size Hvalid 0%nat start)
    as (co & al & m & am & Hco & _ & _ & _ & _ & Ha); [lia|].
  destruct (frame_body_is_Some dataset position_estimate embedding_size weights
              max_num_ped trajectory_size Hvalid 0%nat start) as [after Hafter];
    [lia|].
  exists after, co, al, m, am. split; [exact Hco|]. split; [exact Hafter|].
  assert (Hinit : dec_initialized (st_decoder after)
                  = initialize_args dataset embedding_size weights 0 start).
  { destruct (frame_body_inv _ _ _ _ _ _ _ Hafter) as (a & next & Ha' & _ & ->).
    by rewrite Ha'. }
  split; [|split; [|split]].
  - unfold frames. replace (Z.to_nat (trajectory_size - 1))
      with (S (Z.to_nat (trajectory_size - 1) - 1)) at 1 by lia.
    simpl. by rewrite Hafter.
  - eapply frame_body_same_decoder; [apply start_same_decoder|exact Hafter].
  - by rewrite Hinit.
  - by rewrite Hinit, Ha.
Qed.

(** One iteration, read forwards: the step consumes the arguments of the
    [initialize] before it, and the state keeps what the step returns. *)
Lemma frame_body_step frame st st' :
  same_decoder st -> body frame st = Some st' ->
  exists a next,
    initialize_args dataset embedding_size weights frame st = Some a /\
    index_axis1 (tensors_0 dataset) (S frame) = Some next /\
    dec_initialized (st_decoder st') = Some a /\
    let chosen :=
      helper (arg_frame a) (arg_new_coordinates_processed a)
             (arg_coordinates_preprocessed a) in
    let input :=
      match pooling_module with
      | Some pooling =>
          zip_with app chosen (pooling (arg_hidden_states a) (arg_peds_mask a))
      | None => chosen
      end in
    let r := LSTMCell_call (the_cell lstm_size weights) input
                           (arg_cell_states a) in
    let layered_output := Dense_call (the_output_layer weights) r.1 in
    let e := position_estimate layered_output next output_size embed in
    selected_input (st_decoder st') a = chosen /\
    rnn_input (st_decoder st') a = input /\
    step (st_decoder st') = Some (r.1, r.2, layered_output) /\
    st_cell_output st' = r.1 /\
    st_cell_states st' = r.2 /\
    st_new_coordinates st' = st_new_coordinates st ++ [e.1] /\
    st_new_coordinates_processed st' = Some e.2.
Proof.
  intros (Hcell & Hhelper & Hpool & Hlayer) Hbody.
  destruct (frame_body_inv _ _ _ _ _ _ _ Hbody) as (a & next & Ha & Hnext & ->).
  exists a, next. cbv zeta.
  cbn [st_decoder st_cell_output st_cell_states st_new_coordinates
       st_new_coordinates_processed].
  assert (Hchosen :
    selected_input (initialize (st_decoder st) a) a =
    helper (arg_frame a) (arg_new_coordinates_processed a)
           (arg_coordinates_preprocessed a)).
  { unfold selected_input. cbn [initialize dec_helper]. by rewrite Hhelper. }
  assert (Hinput :
    rnn_input (initialize (st_decoder st) a) a =
    match pooling_module with
    | Some pooling =>
        zip_with app
          (helper (arg_frame a) (arg_new_coordinates_processed a)
                  (arg_coordinates_preprocessed a))
          (pooling (arg_hidden_states a) (arg_peds_mask a))
    | None =>
        helper (arg_frame a) (arg_new_coordinates_processed a)
               (arg_coordinates_preprocessed a)
    end).
  { unfold rnn_input, pooled_context. rewrite Hchosen.
    cbn [initialize dec_pooling_module]. rewrite Hpool.
    by destruct pooling_module. }
  rewrite step_initialize. cbv zeta.
  change (dec_cell (initialize (st_decoder st) a)) with (dec_cell (st_decoder st)).
  change (dec_output_layer (initialize (st_decoder st) a))
    with (dec_output_layer (st_decoder st)).
  rewrite Hcell, Hlayer, Hinput.
  repeat match goal with |- _ /\ _ => split end; done.
Qed.

(** The first iteration: the step that follows the first [initialize]. *)
Lemma first_frame_step :
  2 <= trajectory_size ->
  exists after coordinates next mask all_coordinates all_mask,
    let a :=
      {| arg_frame := 0;
         arg_coordinates_preprocessed := embed coordinates;
         arg_new_coordinates_processed := None;
         arg_cell_states := zero_state (the_cell lstm_size weights) max_num_ped;
         arg_all_peds_preprocessed := embed all_coordinates;
         arg_hidden_states := tf_zeros max_num_ped lstm_size;
         arg_peds_mask := mask;
         arg_all_peds_mask := all_mask |} in
    let chosen := helper 0%nat None (embed coordinates) in
    let input :=
      match pooling_module with
      | Some pooling =>
          zip_with app chosen (pooling (tf_zeros max_num_ped lstm_size) mask)
      | None => chosen
      end in
    let r := LSTMCell_call (the_cell lstm_size weights) input
               (zero_state (the_cell lstm_size weights) max_num_ped) in
    let layered_output := Dense_call (the_output_layer weights) r.1 in
    let e := position_estimate layered_output next output_size embed in
    index_axis1 (tensors_0 dataset) 0 = Some coordinates /\
    index_axis1 (tensors_0 dataset) 1 = Some next /\
    body 0%nat start = Some after /\
    run (frames trajectory_size) start
    = run (seq 1 (Z.to_nat (trajectory_size - 1) - 1)) after /\
    same_decoder after /\
    initialize_args dataset embedding_size weights 0 start = Some a /\
    dec_initialized (st_decoder after) = Some a /\
    selected_input (st_decoder after) a = chosen /\
    rnn_input (st_decoder after) a = input /\
    step (st_decoder after) = Some (r.1, r.2, layered_output) /\
    st_cell_output after = r.1 /\
    st_cell_states after = r.2 /\
    st_new_coordinates after = [e.1] /\
    st_new_coordinates_processed after = Some e.2.
Proof.
  intros HT.
  destruct (first_frame HT)
    as (after & co & al & m & am & Hco & Hafter & Hrest & Hsame & Hargs & Hinit).
  destruct (frame_body_step 0%nat start after start_same_decoder Hafter)
    as (a & next & Ha & Hnext & Ha' & Hstep).
  rewrite Hargs, Hinit in Ha. injection Ha as <-.
  cbv zeta in Hstep.
  cbn [arg_frame arg_new_coordinates_processed arg_coordinates_preprocessed
       arg_hidden_states arg_peds_mask arg_cell_states] in Hstep.
  exists after, co, next, m, al, am. cbv zeta.
  split; [exact Hco|]. split; [exact Hnext|]. split; [exact Hafter|].
  split; [exact Hrest|]. split; [exact Hsame|].
  split; [by rewrite Hargs|]. split; [exact Hinit|]. exact Hstep.
Qed.

(** One transition keeps the shape of the recurrent state, when the helper
    and the pooling strategy return one row per slot at this call. *)
Lemma frame_body_state_shape frame st st' a :
  (frame < Z.to_nat trajectory_size)%nat ->
  same_decoder st -> state_shape st ->
  initialize_args dataset embedding_size weights frame st = Some a ->
  length (helper (arg_frame a) (arg_new_coordinates_processed a)
                 (arg_coordinates_preprocessed a))
  = length (arg_coordinates_preprocessed a) ->
  (forall pooling, pooling_module = Some pooling ->
   length (pooling (arg_hidden_states a) (arg_peds_mask a))
   = length (arg_hidden_states a)) ->
  body frame st = Some st' -> state_shape st'.
Proof.
  intros Hframe Hsame (Hout & Hc & Hh) Ha Hhelper Hpooling Hbody.
  destruct (frame_body_step frame st st' Hsame Hbody)
    as (a' & next & Ha' & _ & _ & _ & _ & _ & Houtput & Hstates & _).
  assert (a' = a) as -> by congruence.
  destruct (initialize_args_valid dataset embedding_size weights max_num_ped
              trajectory_size Hvalid frame st Hframe)
    as (co & al & m & am & _ & Hco & _ & _ & _ & Ha'').
  unfold state_shape. rewrite Houtput, Hstates.
  rewrite Ha'' in Ha. injection Ha as <-.
  cbn [arg_frame arg_new_coordinates_processed arg_coordinates_preprocessed
       arg_hidden_states arg_peds_mask arg_cell_states] in *.
  apply (LSTMCell_call_shape (the_cell lstm_size weights) max_num_ped);
    [|exact Hc|exact Hh].
  rewrite Dense_call_length in Hhelper. destruct Hout as [Hout _].
  destruct pooling_module as [pooling|].
  - pose proof (Hpooling pooling eq_refl) as Hpooled.
    rewrite length_zip_with. unfold mat, vec in *. lia.
  - unfold mat, vec in *. lia.
Qed.

Hypothesis helper_rows :
  forall frame a,
    initialize_call dataset helper position_estimate pooling_module lstm_size
                    max_num_ped trajectory_size embedding_size weights frame a ->
    length (helper (arg_frame a) (arg_new_coordinates_processed a)
                   (arg_coordinates_preprocessed a))
    = length (arg_coordinates_preprocessed a).
Hypothesis pooling_rows :
  forall pooling, pooling_module = Some pooling ->
  forall frame a,
    initialize_call dataset helper position_estimate pooling_module lstm_size
                    max_num_ped trajectory_size embedding_size weights frame a ->
    length (pooling (arg_hidden_states a) (arg_peds_mask a))
    = length (arg_hidden_states a).

(** The shape after any number of transitions of the trajectory. *)
Lemma decode_state_shape (k : nat) :
  (k <= Z.to_nat (trajectory_size - 1))%nat ->
  exists st, run (seq 0 k) start = Some st /\ same_decoder st /\ state_shape st.
Proof.
  induction k as [|k IH]; intros Hk.
  - exists start. split; [done|]. split;
      [apply start_same_decoder|apply start_state_shape].
  - destruct IH as (st & Hst & Hsame & Hshape); [lia|].
    destruct (frame_body_is_Some dataset position_estimate embedding_size
                weights max_num_ped trajectory_size Hvalid k st) as [st' Hst'];
      [lia|].
    destruct (frame_body_inv _ _ _ _ _ _ _ Hst') as (a & _ & Ha & _).
    assert (Hcall :
      initialize_call dataset helper position_estimate pooling_module lstm_size
        max_num_ped trajectory_size embedding_size weights k a).
    { split; [lia|]. by exists st. }
    exists st'. rewrite seq_S, decode_app, Hst.
    cbn [mbind option_bind]. simpl. rewrite Hst'. split; [done|]. split.
    + by eapply frame_body_same_decoder.
    + eapply (frame_body_state_shape k st st' a);
        [lia|done|done|exact Ha|exact (helper_rows k a Hcall)| |exact Hst'].
      intros pooling Hpooling. exact (pooling_rows pooling Hpooling k a Hcall).
Qed.

End Decoding.

(** ** The first frame *)

(** C4.  At frame index 0 the decoder is initialised with [None] as the
    embedding of the previously predicted coordinates, and the step of
    this frame calls the helper with frame 0, [None] and the embedding of
    [input_data[:, 0]]: what the helper returns there, with the pooled
    context when pooling is configured, is the input on which the cell
    advances from the zero state to the state that the loop keeps and to
    the first prediction.  A helper that chooses the ground truth when it
    receives [None], as it must, feeds the embedding of [input_data[:, 0]]
    to the cell. *)
Theorem first_frame_has_no_previous_prediction {V Msk : Type}
    (dataset : Dataset Msk) (helper : Helper)
    (position_estimate : @PositionEstimate V)
    (pooling_module : option (Pooling Msk))
    (lstm_size max_num_ped : nat) (trajectory_size : Z) (embedding_size : nat)
    (weights : Weights) :
  valid_dataset max_num_ped trajectory_size dataset ->
  2 <= trajectory_size ->
  let run := decode dataset position_estimate embedding_size weights in
  let start := initial_state helper pooling_module lstm_size max_num_ped weights in
  let embed := Dense_call (the_coordinates_layer embedding_size weights) in
  exists after a real next,
    frame_body dataset position_estimate embedding_size weights 0 start
    = Some after /\
    run (frames trajectory_size) start
    = run (seq 1 (Z.to_nat (trajectory_size - 1) - 1)) after /\
    initialize_args dataset embedding_size weights 0 start = Some a /\
    dec_initialized (st_decoder after) = Some a /\
    arg_frame a = 0%nat /\
    arg_new_coordinates_processed a = None /\
    index_axis1 (tensors_0 dataset) 0 = Some real /\
    index_axis1 (tensors_0 dataset) 1 = Some next /\
    let ground_truth := embed real in
    let with_context chosen :=
      match pooling_module with
      | Some pooling =>
          zip_with app chosen (pooling (arg_hidden_states a) (arg_peds_mask a))
      | None => chosen
      end in
    let chosen := helper 0%nat None ground_truth in
    let r := LSTMCell_call (the_cell lstm_size weights) (with_context chosen)
               (zero_state (the_cell lstm_size weights) max_num_ped) in
    let layered_output := Dense_call (the_output_layer weights) r.1 in
    let estimate := position_estimate layered_output next output_size embed in
    arg_coordinates_preprocessed a = ground_truth /\
    selected_input (st_decoder after) a = chosen /\
    rnn_input (st_decoder after) a = with_context chosen /\
    step (st_decoder after) = Some (r.1, r.2, layered_output) /\
    st_cell_output after = r.1 /\
    st_cell_states after = r.2 /\
    st_new_coordinates after = [estimate.1] /\
    st_new_coordinates_processed after = Some estimate.2 /\
    ((forall frame coordinates, helper frame None coordinates = coordinates) ->
     selected_input (st_decoder after) a = ground_truth /\
     rnn_input (st_decoder after) a = with_context ground_truth /\
     st_cell_output after =
     (LSTMCell_call (the_cell lstm_size weights) (with_context ground_truth)
        (zero_state (the_cell lstm_size weights) max_num_ped)).1).
Proof.
  intros Hvalid HT run start embed. subst run start embed.
  destruct (first_frame_step dataset helper position_estimate pooling_module
              lstm_size max_num_ped trajectory_size embedding_size weights
              Hvalid HT)
    as (after & co & next & m & al & am & Hco & Hnext & Hafter & Hrest & _
        & Hargs & Hinit & Hchosen & Hinput & Hstep & Hout & Hstates & Hnew
        & Hprocessed).
  eexists after, _, co, next. split; [exact Hafter|]. split; [exact Hrest|].
  split; [exact Hargs|]. split; [exact Hinit|]. split; [done|]. split; [done|].
  split; [exact Hco|]. split; [exact Hnext|]. cbv zeta.
  cbn [arg_hidden_states arg_peds_mask arg_coordinates_preprocessed].
  split; [done|]. split; [exact Hchosen|]. split; [exact Hinput|].
  split; [exact Hstep|]. split; [exact Hout|]. split; [exact Hstates|].
  split; [exact Hnew|]. split; [exact Hprocessed|].
  intros Hhelper. rewrite Hchosen, Hinput, Hout, !Hhelper. done.
Qed.

Lemma first_frame_has_no_previous_prediction_witness :
  valid_dataset 2 3 (Scenario.dataset 2) /\ 2 <= 3 /\
  (forall frame coordinates,
     reference_helper frame None coordinates = coordinates) /\
  exists after a,
    frame_body (Scenario.dataset 2) Scenario.position_verbatim 3
               Scenario.weights 0
               (initial_state reference_helper (Some Scenario.pooling_zeros)
                              4 2 Scenario.weights) = Some after /\
    dec_initialized (st_decoder after) = Some a /\
    arg_new_coordinates_processed a = None /\
    selected_input (st_decoder after) a =
    Dense_call (the_coordinates_layer 3 Scenario.weights)
               [Scenario.p 1 1; Scenario.p 1 5] /\
    st_cell_output after =
    (LSTMCell_call (the_cell 4 Scenario.weights)
       (zip_with app
          (Dense_call (the_coordinates_layer 3 Scenario.weights)
                      [Scenario.p 1 1; Scenario.p 1 5])
          (Scenario.pooling_zeros (tf_zeros 2 4) (arg_peds_mask a)))
       (zero_state (the_cell 4 Scenario.weights) 2)).1.
Proof.
  assert (Hvalid : valid_dataset 2 3 (Scenario.dataset 2))
    by (apply scenario_dataset_valid; lia).
  assert (HT : 2 <= 3) by lia.
  assert (Hhelper : forall frame coordinates,
            reference_helper frame None coordinates = coordinates)
    by reflexivity.
  split; [exact Hvalid|]. split; [exact HT|]. split; [exact Hhelper|].
  destruct (first_frame_has_no_previous_prediction
              (Scenario.dataset 2) reference_helper Scenario.position_verbatim
              (Some Scenario.pooling_zeros) 4 2 3 3 Scenario.weights
              Hvalid HT)
    as (after & a & real & next & Hafter & _ & Hargs & Hinit & _ & Hnone & Hreal
        & _ & _ & _ & _ & _ & _ & _ & _ & _ & Hground).
  destruct (Hground Hhelper) as (Hsel & _ & Hout).
  exists after, a. split; [exact Hafter|]. split; [exact Hinit|].
  split; [exact Hnone|].
  vm_compute in Hreal. injection Hreal as <-.
  split; [exact Hsel|].
  rewrite Hout. vm_compute in Hargs. injection Hargs as <-. reflexivity.
Defined.

(** C10.  At frame index 0 the hidden states handed to the decoder are the
    all-zero tensor of shape [[max_num_ped, lstm_size]], whatever the
    dataset element holds, and the step of this frame applies a configured
    pooling strategy to this zero tensor and the neighbour mask of frame
    0: the context that it returns is what the step concatenates to the
    selected embedding, and the cell advances on this input from the zero
    state to the state that the loop keeps and to the first prediction. *)
Theorem first_frame_pools_zero_hidden_states {V Msk : Type}
    (dataset : Dataset Msk) (helper : Helper)
    (position_estimate : @PositionEstimate V)
    (pooling_module : option (Pooling Msk))
    (lstm_size max_num_ped : nat) (trajectory_size : Z) (embedding_size : nat)
    (weights : Weights) :
  valid_dataset max_num_ped trajectory_size dataset ->
  2 <= trajectory_size ->
  let run := decode dataset position_estimate embedding_size weights in
  let start := initial_state helper pooling_module lstm_size max_num_ped weights in
  let embed := Dense_call (the_coordinates_layer embedding_size weights) in
  exists after a mask next,
    frame_body dataset position_estimate embedding_size weights 0 start
    = Some after /\
    run (frames trajectory_size) start
    = run (seq 1 (Z.to_nat (trajectory_size - 1) - 1)) after /\
    initialize_args dataset embedding_size weights 0 start = Some a /\
    dec_initialized (st_decoder after) = Some a /\
    arg_frame a = 0%nat /\
    arg_hidden_states a = tf_zeros max_num_ped lstm_size /\
    has_shape2 max_num_ped lstm_size (arg_hidden_states a) /\
    Forall (Forall (fun x => x = zero)) (arg_hidden_states a) /\
    index_axis2 (tensors_1 dataset) 0 = Some mask /\
    arg_peds_mask a = mask /\
    index_axis1 (tensors_0 dataset) 1 = Some next /\
    let pooled :=
      (fun pooling => pooling (tf_zeros max_num_ped lstm_size) mask)
        <$> pooling_module in
    let input :=
      match pooled with
      | Some context => zip_with app (selected_input (st_decoder after) a) context
      | None => selected_input (st_decoder after) a
      end in
    let r := LSTMCell_call (the_cell lstm_size weights) input
               (zero_state (the_cell lstm_size weights) max_num_ped) in
    let layered_output := Dense_call (the_output_layer weights) r.1 in
    let estimate := position_estimate layered_output next output_size embed in
    pooled_context (st_decoder after) a = pooled /\
    rnn_input (st_decoder after) a = input /\
    step (st_decoder after) = Some (r.1, r.2, layered_output) /\
    st_cell_output after = r.1 /\
    st_cell_states after = r.2 /\
    st_new_coordinates after = [estimate.1] /\
    st_new_coordinates_processed after = Some estimate.2.
Proof.
  intros Hvalid HT run start embed. subst run start embed.
  destruct (first_frame_step dataset helper position_estimate pooling_module
              lstm_size max_num_ped trajectory_size embedding_size weights
              Hvalid HT)
    as (after & co & next & m & al & am & Hco & Hnext & Hafter & Hrest & Hsame
        & Hargs & Hinit & Hchosen & Hinput & Hstep & Hout & Hstates & Hnew
        & Hprocessed).
  assert (Hmask : index_axis2 (tensors_1 dataset) 0 = Some m).
  { destruct (initialize_args_valid dataset embedding_size weights max_num_ped
                trajectory_size Hvalid 0%nat
                (initial_state (V:=V) helper pooling_module lstm_size
                               max_num_ped weights))
      as (co' & al' & m' & am' & _ & _ & _ & Hm' & _ & Ha'); [lia|].
    rewrite Hargs in Ha'. injection Ha' as _ _ <- _. exact Hm'. }
  eexists after, _, m, next. split; [exact Hafter|]. split; [exact Hrest|].
  split; [exact Hargs|]. split; [exact Hinit|]. split; [done|]. split; [done|].
  cbn [arg_hidden_states arg_peds_mask].
  split; [apply tf_zeros_shape|]. split.
  { apply Forall_replicate, Forall_replicate. reflexivity. }
  split; [exact Hmask|]. split; [done|]. split; [exact Hnext|]. cbv zeta.
  assert (Hsame_input :
    match (fun pooling => pooling (tf_zeros max_num_ped lstm_size) m)
            <$> pooling_module with
    | Some context =>
        zip_with app (helper 0%nat None
                        (Dense_call (the_coordinates_layer embedding_size weights) co))
                 context
    | None => helper 0%nat None
                (Dense_call (the_coordinates_layer embedding_size weights) co)
    end =
    match pooling_module with
    | Some pooling =>
        zip_with app (helper 0%nat None
                        (Dense_call (the_coordinates_layer embedding_size weights) co))
                 (pooling (tf_zeros max_num_ped lstm_size) m)
    | None => helper 0%nat None
                (Dense_call (the_coordinates_layer embedding_size weights) co)
    end) by (by destruct pooling_module).
  rewrite Hchosen, Hsame_input.
  split.
  { destruct Hsame as (_ & _ & Hpool & _). unfold pooled_context.
    by rewrite Hpool. }
  split; [exact Hinput|]. split; [exact Hstep|]. split; [exact Hout|].
  split; [exact Hstates|]. split; [exact Hnew|exact Hprocessed].
Qed.

Lemma first_frame_pools_zero_hidden_states_witness :
  valid_dataset 2 3 (Scenario.dataset 2) /\ 2 <= 3 /\
  exists after a,
    frame_body (Scenario.dataset 2) Scenario.position_verbatim 3
               Scenario.weights 0
               (initial_state Scenario.helper_ground_truth
                              (Some Scenario.pooling_zeros)
                              4 2 Scenario.weights) = Some after /\
    dec_initialized (st_decoder after) = Some a /\
    arg_hidden_states a = tf_zeros 2 4 /\
    pooled_context (st_decoder after) a =
    Some (Scenario.pooling_zeros (tf_zeros 2 4) (arg_peds_mask a)).
Proof.
  assert (Hvalid : valid_dataset 2 3 (Scenario.dataset 2))
    by (apply scenario_dataset_valid; lia).
  assert (HT : 2 <= 3) by lia.
  split; [exact Hvalid|]. split; [exact HT|].
  destruct (first_frame_pools_zero_hidden_states
              (Scenario.dataset 2) Scenario.helper_ground_truth
              Scenario.position_verbatim (Some Scenario.pooling_zeros)
              4 2 3 3 Scenario.weights Hvalid HT)
    as (after & a & mask & next & Hafter & _ & _ & Hinit & _ & Hzero & _ & _ & _
        & Harg & _ & Hpooled & _).
  exists after, a. split; [exact Hafter|]. split; [exact Hinit|].
  split; [exact Hzero|]. rewrite Hpooled, Harg. reflexivity.
Defined.

(** ** The recurrent state *)

(** C5.  Before the first recurrent step the hidden and the memory vectors
    of every slot and the initial hidden-output tensor are all zero, of
    shape [[max_num_ped, lstm_size]]; after any number of the
    [trajectory_size - 1] transitions the three tensors still have this
    shape, when the helper and the pooling strategy return one row per
    slot at the calls that the frame loop makes. *)
Theorem recurrent_state_zero_then_shape_preserved {V Msk : Type}
    (dataset : Dataset Msk) (helper : Helper)
    (position_estimate : @PositionEstimate V)
    (pooling_module : option (Pooling Msk))
    (lstm_size max_num_ped : nat) (trajectory_size : Z) (embedding_size : nat)
    (weights : Weights) :
  valid_dataset max_num_ped trajectory_size dataset ->
  (forall frame a,
     initialize_call dataset helper position_estimate pooling_module lstm_size
                     max_num_ped trajectory_size embedding_size weights frame a ->
     length (helper (arg_frame a) (arg_new_coordinates_processed a)
                    (arg_coordinates_preprocessed a))
     = length (arg_coordinates_preprocessed a)) ->
  (forall pooling, pooling_module = Some pooling ->
   forall frame a,
     initialize_call dataset helper position_estimate pooling_module lstm_size
                     max_num_ped trajectory_size embedding_size weights frame a ->
     length (pooling (arg_hidden_states a) (arg_peds_mask a))
     = length (arg_hidden_states a)) ->
  let run := decode dataset position_estimate embedding_size weights in
  let start := initial_state helper pooling_module lstm_size max_num_ped weights in
  st_cell_output start = tf_zeros max_num_ped lstm_size /\
  c (st_cell_states start) = tf_zeros max_num_ped lstm_size /\
  h (st_cell_states start) = tf_zeros max_num_ped lstm_size /\
  has_shape2 max_num_ped lstm_size (tf_zeros max_num_ped lstm_size) /\
  forall k, (k <= Z.to_nat (trajectory_size - 1))%nat ->
    exists st,
      run (seq 0 k) start = Some st /\
      has_shape2 max_num_ped lstm_size (st_cell_output st) /\
      has_shape2 max_num_ped lstm_size (c (st_cell_states st)) /\
      has_shape2 max_num_ped lstm_size (h (st_cell_states st)).
Proof.
  intros Hvalid Hhelper Hpooling run start.
  repeat (split; [reflexivity|]). split; [apply tf_zeros_shape|].
  intros k Hk.
  destruct (decode_state_shape dataset helper position_estimate pooling_module
              lstm_size max_num_ped trajectory_size embedding_size weights
              Hvalid Hhelper Hpooling k Hk) as (st & Hst & _ & Hshape).
  exists st. split; [exact Hst|exact Hshape].
Qed.

Lemma recurrent_state_zero_then_shape_preserved_witness :
  valid_dataset 2 3 (Scenario.dataset 2) /\
  (forall frame a,
     initialize_call (Scenario.dataset 2) reference_helper
       Scenario.position_verbatim (Some Scenario.pooling_zeros) 4 2 3 3
       Scenario.weights frame a ->
     length (reference_helper (arg_frame a) (arg_new_coordinates_processed a)
                              (arg_coordinates_preprocessed a))
     = length (arg_coordinates_preprocessed a)) /\
  (forall pooling, Some (@Scenario.pooling_zeros bool) = Some pooling ->
   forall frame a,
     initialize_call (Scenario.dataset 2) reference_helper
       Scenario.position_verbatim (Some Scenario.pooling_zeros) 4 2 3 3
       Scenario.weights frame a ->
     length (pooling (arg_hidden_states a) (arg_peds_mask a))
     = length (arg_hidden_states a)) /\
  exists st previous,
    decode (Scenario.dataset 2) Scenario.position_verbatim 3 Scenario.weights
           (seq 0 2)
           (initial_state reference_helper
              (Some Scenario.pooling_zeros) 4 2 Scenario.weights) = Some st /\
    st_new_coordinates_processed st = Some previous /\
    has_shape2 2 4 (st_cell_output st) /\
    has_shape2 2 4 (c (st_cell_states st)) /\
    has_shape2 2 4 (h (st_cell_states st)).
Proof.
  assert (Hvalid : valid_dataset 2 3 (Scenario.dataset 2))
    by (apply scenario_dataset_valid; lia).
  assert (Hhelper : forall frame a,
            initialize_call (Scenario.dataset 2) reference_helper
              Scenario.position_verbatim (Some Scenario.pooling_zeros) 4 2 3 3
              Scenario.weights frame a ->
            length (reference_helper (arg_frame a)
                      (arg_new_coordinates_processed a)
                      (arg_coordinates_preprocessed a))
            = length (arg_coordinates_preprocessed a)).
  { intros frame a (Hframe & st & Hst & Ha).
    destruct frame as [|[|frame]]; [| |simpl in Hframe; lia];
      vm_compute in Hst; injection Hst as <-;
      vm_compute in Ha; injection Ha as <-; reflexivity. }
  assert (Hpooling : forall pooling,
            Some (@Scenario.pooling_zeros bool) = Some pooling ->
            forall frame a,
              initialize_call (Scenario.dataset 2) reference_helper
                Scenario.position_verbatim (Some Scenario.pooling_zeros)
                4 2 3 3 Scenario.weights frame a ->
              length (pooling (arg_hidden_states a) (arg_peds_mask a))
              = length (arg_hidden_states a)).
  { intros pooling [= <-] frame a _. apply length_map. }
  split; [exact Hvalid|]. split; [exact Hhelper|]. split; [exact Hpooling|].
  destruct (recurrent_state_zero_then_shape_preserved
              (Scenario.dataset 2) reference_helper
              Scenario.position_verbatim (Some Scenario.pooling_zeros)
              4 2 3 3 Scenario.weights Hvalid Hhelper Hpooling)
    as (_ & _ & _ & _ & Hsteps).
  destruct (Hsteps 2%nat) as (st & Hst & Hshape); [simpl; lia|].
  exists st. eexists. split; [exact Hst|]. split; [|exact Hshape].
  vm_compute in Hst. injection Hst as <-. reflexivity.
Defined.

(** ** Two runs of the forward unroll *)

Section RunsAreDeterministic.
Context {V Msk : Type}.
Variable dataset : Dataset Msk.
Variable helper : RandomHelper.
Variable position_estimate : @RandomPositionEstimate V.
Variable pooling_module : option (@RandomPooling Msk).
Variable lstm_size max_num_ped : nat.
Variable embedding_size : nat.
Variable weights : Weights.
Hypothesis one_choice : deterministic_helper helper.
Hypothesis one_context : deterministic_pooling pooling_module.
Hypothesis one_estimate : deterministic_position_estimate position_estimate.

Abbreviation steps := (decoder_steps helper pooling_module lstm_size weights).
Abbreviation frame_runs :=
  (frame_runs dataset helper position_estimate pooling_module lstm_size
              embedding_size weights).
Abbreviation decode_runs :=
  (decode_runs dataset helper position_estimate pooling_module lstm_size
               embedding_size weights).

(** Two steps of the decoder on the same arguments return the same. *)
Lemma decoder_steps_deterministic a result1 result2 :
  steps a result1 -> steps a result2 -> result1 = result2.
Proof.
  intros [chosen1 Hnone1 Hchosen1 | pooling1 chosen1 pooled1 Hsome1 Hchosen1 Hpooled1]
         [chosen2 Hnone2 Hchosen2 | pooling2 chosen2 pooled2 Hsome2 Hchosen2 Hpooled2];
    try congruence.
  - by rewrite (one_choice _ _ _ _ _ Hchosen1 Hchosen2).
  - assert (pooling2 = pooling1) as -> by congruence.
    rewrite (one_choice _ _ _ _ _ Hchosen1 Hchosen2).
    by rewrite (one_context pooling1 Hsome1 _ _ _ _ Hpooled1 Hpooled2).
Qed.

(** Two iterations of a frame from the same state end in the same state. *)
Lemma frame_runs_deterministic frame st st1 st2 :
  frame_runs frame st st1 -> frame_runs frame st st2 -> st1 = st2.
Proof.
  intros [a1 result1 next1 estimate1 Ha1 Hsteps1 Hnext1 Hestimate1]
         [a2 result2 next2 estimate2 Ha2 Hsteps2 Hnext2 Hestimate2].
  assert (a2 = a1) as -> by congruence.
  assert (next2 = next1) as -> by congruence.
  rewrite (decoder_steps_deterministic _ _ _ Hsteps1 Hsteps2) in *.
  by rewrite (one_estimate _ _ _ _ _ _ Hestimate1 Hestimate2).
Qed.

(** Two runs of the loop from the same state end in the same state. *)
Lemma decode_runs_deterministic fs st st1 st2 :
  decode_runs fs st st1 -> decode_runs fs st st2 -> st1 = st2.
Proof.
  intros Hrun1. revert st2.
  induction Hrun1 as [st|frame rest st st' st1 Hframe1 _ IH]; intros st2 Hrun2.
  - by inversion Hrun2.
  - inversion Hrun2 as [|frame' rest' st0 st'2 st2' Hframe2 Hrest2]; subst.
    rewrite <- (frame_runs_deterministic _ _ _ _ Hframe1 Hframe2) in Hrest2.
    by apply IH.
Qed.

End RunsAreDeterministic.

(** The runs of the functional constructor are runs of the relational one,
    whenever the random collaborators can return what the functions
    return. *)
Section FunctionalRuns.
Context {V Msk : Type}.
Variable dataset : Dataset Msk.
Variable random_helper : RandomHelper.
Variable random_position : @RandomPositionEstimate V.
Variable random_loss : @RandomLossFunction V.
Variable random_pooling : option (@RandomPooling Msk).
Variable helper : Helper.
Variable position_estimate : @PositionEstimate V.
Variable loss_function : @LossFunction V.
Variable pooling_module : option (Pooling Msk).
Variable lstm_size max_num_ped : nat.
Variable prediction_time trajectory_size : Z.
Variable embedding_size : nat.
Variable l2_norm : float32.
Variable weights : Weights.
Variable tvars : list TFVariable.
Hypothesis can_choose : helper_can random_helper helper.
Hypothesis can_pool : pooling_can random_pooling pooling_module.
Hypothesis can_estimate : position_can random_position position_estimate.
Hypothesis can_lose : loss_can random_loss loss_function.

Abbreviation same_decoder := (same_decoder helper pooling_module lstm_size weights).
Implicit Types (st : LoopState V Msk).

Lemma frame_body_runs frame st st' :
  same_decoder st ->
  frame_body dataset position_estimate embedding_size weights frame st
  = Some st' ->
  frame_runs dataset random_helper random_position random_pooling lstm_size
             embedding_size weights frame (to_run st) (to_run st').
Proof.
  intros (Hcell & Hhelper & Hpool & Hlayer) Hbody.
  destruct (frame_body_inv _ _ _ _ _ _ _ Hbody) as (a & next & Ha & Hnext & ->).
  cbv zeta.
  change (dec_cell (initialize (st_decoder st) a)) with (dec_cell (st_decoder st)).
  change (dec_output_layer (initialize (st_decoder st) a))
    with (dec_output_layer (st_decoder st)).
  rewrite Hcell, Hlayer.
  set (input := rnn_input (initialize (st_decoder st) a) a).
  assert (Hsteps :
    decoder_steps random_helper random_pooling lstm_size weights a
                  (cell_step lstm_size weights input (arg_cell_states a))).
  { unfold input, rnn_input, pooled_context, selected_input.
    cbn [initialize dec_helper dec_pooling_module]. rewrite Hhelper, Hpool.
    unfold pooling_can in can_pool.
    destruct random_pooling as [random|] eqn:Hrandom,
             pooling_module as [pooling|]; try done;
      cbn [fmap option_fmap option_map].
    - eapply steps_with_pooling; [reflexivity|apply can_choose|apply can_pool].
    - apply steps_without_pooling; [reflexivity|apply can_choose]. }
  exact (frame_run dataset random_helper random_position random_pooling
           lstm_size embedding_size weights frame (to_run st) a _ next _
           Ha Hsteps Hnext (can_estimate _ _ _ _)).
Qed.

Lemma decode_runs_of_decode fs st st' :
  same_decoder st ->
  decode dataset position_estimate embedding_size weights fs st = Some st' ->
  decode_runs dataset random_helper random_position random_pooling lstm_size
              embedding_size weights fs (to_run st) (to_run st').
Proof.
  revert st. induction fs as [|frame fs IH]; intros st Hsame Hrun.
  - injection Hrun as <-. constructor.
  - simpl in Hrun.
    destruct (frame_body _ _ _ _ frame st) as [st1|] eqn:Hbody; [|discriminate].
    cbn [mbind option_bind] in Hrun.
    econstructor; [by apply frame_body_runs|].
    apply IH; [|exact Hrun].
    by eapply (frame_body_same_decoder dataset helper position_estimate
                 pooling_module lstm_size embedding_size weights).
Qed.

(** Every model of the functional constructor is the model of a run. *)
Lemma constructs_of_SocialModel_init m :
  SocialModel_init dataset helper position_estimate loss_function
    pooling_module lstm_size max_num_ped prediction_time trajectory_size
    embedding_size l2_norm weights tvars = Some m ->
  constructs dataset random_helper random_position random_loss random_pooling
    lstm_size max_num_ped prediction_time trajectory_size embedding_size
    l2_norm weights tvars m.
Proof.
  unfold SocialModel_init, calculate_loss. intros Hm.
  destruct (decode _ _ _ _ _ _) as [st|] eqn:Hst; [|discriminate].
  cbn [mbind option_bind] in Hm.
  destruct (l2_loss l2_norm tvars) as [l2|] eqn:Hl2; [|discriminate].
  cbn [mbind option_bind] in Hm. injection Hm as <-.
  apply (constructed dataset random_helper random_position random_loss
           random_pooling lstm_size max_num_ped prediction_time
           trajectory_size embedding_size l2_norm weights tvars
           (to_run st) _ l2); [|apply can_lose|exact Hl2].
  apply (decode_runs_of_decode _ _ _ (start_same_decoder helper pooling_module
           lstm_size max_num_ped weights) Hst).
Qed.

End FunctionalRuns.

(** With collaborators that are functions, the runs are those of the
    functional constructor. *)
Section GraphRuns.
Context {V Msk : Type}.
Variable dataset : Dataset Msk.
Variable helper : Helper.
Variable position_estimate : @PositionEstimate V.
Variable loss_function : @LossFunction V.
Variable pooling_module : option (Pooling Msk).
Variable lstm_size max_num_ped : nat.
Variable prediction_time trajectory_size : Z.
Variable embedding_size : nat.
Variable l2_norm : float32.
Variable weights : Weights.
Variable tvars : list TFVariable.

Lemma helper_graph_deterministic : deterministic_helper (helper_graph helper).
Proof. by intros frame previous real chosen1 chosen2 -> ->. Qed.

Lemma pooling_graph_deterministic :
  deterministic_pooling (pooling_graph <$> pooling_module).
Proof.
  intros pooling Hpooling hidden_states mask pooled1 pooled2.
  destruct pooling_module as [f|]; [|discriminate].
  injection Hpooling as <-. by intros -> ->.
Qed.

Lemma position_graph_deterministic :
  deterministic_position_estimate (position_graph position_estimate).
Proof. by intros layered_output next size layer estimate1 estimate2 -> ->. Qed.

Lemma loss_graph_deterministic : deterministic_loss (loss_graph loss_function).
Proof. by intros stacked value1 value2 -> ->. Qed.

Lemma helper_graph_can : helper_can (helper_graph helper) helper.
Proof. by intros frame previous real. Qed.

Lemma pooling_graph_can :
  pooling_can (pooling_graph <$> pooling_module) pooling_module.
Proof. by destruct pooling_module. Qed.

Lemma position_graph_can :
  position_can (position_graph position_estimate) position_estimate.
Proof. by intros layered_output next size layer. Qed.

Lemma loss_graph_can : loss_can (loss_graph loss_function) loss_function.
Proof. by intros stacked. Qed.

Abbreviation same_decoder := (same_decoder helper pooling_module lstm_size weights).
Abbreviation graph_frame_runs :=
  (frame_runs dataset (helper_graph helper) (position_graph position_estimate)
              (pooling_graph <$> pooling_module) lstm_size embedding_size
              weights).
Abbreviation graph_decode_runs :=
  (decode_runs dataset (helper_graph helper) (position_graph position_estimate)
               (pooling_graph <$> pooling_module) lstm_size embedding_size
               weights).
Implicit Types (st : LoopState V Msk).

(** An iteration that runs is an iteration of [frame_body]. *)
Lemma frame_body_of_runs frame st (rs : RunState V Msk) :
  same_decoder st ->
  graph_frame_runs frame (to_run st) rs ->
  exists st',
    frame_body dataset position_estimate embedding_size weights frame st
    = Some st' /\ rs = to_run st'.
Proof.
  intros Hsame Hruns.
  assert (Hbody : is_Some (frame_body dataset position_estimate embedding_size
                             weights frame st)).
  { destruct Hruns as [a result next estimate Ha _ Hnext _].
    unfold frame_body.
    change (run_initialize_args dataset embedding_size weights frame (to_run st))
      with (initialize_args dataset embedding_size weights frame st) in Ha.
    rewrite Ha. cbn [mbind option_bind]. rewrite step_initialize.
    cbn [mbind option_bind]. rewrite Hnext. cbn [mbind option_bind].
    destruct (position_estimate _ next output_size _). eauto. }
  destruct Hbody as [st' Hst']. exists st'. split; [exact Hst'|].
  eapply (frame_runs_deterministic dataset (helper_graph helper)
            (position_graph position_estimate)
            (pooling_graph <$> pooling_module));
    [apply helper_graph_deterministic|apply pooling_graph_deterministic
    |apply position_graph_deterministic|exact Hruns|].
  apply (frame_body_runs dataset (helper_graph helper)
           (position_graph position_estimate)
           (pooling_graph <$> pooling_module) helper position_estimate
           pooling_module lstm_size embedding_size weights
           helper_graph_can pooling_graph_can position_graph_can
           frame st st' Hsame Hst').
Qed.

Lemma decode_of_runs fs st (rs : RunState V Msk) :
  same_decoder st ->
  graph_decode_runs fs (to_run st) rs ->
  exists st',
    decode dataset position_estimate embedding_size weights fs st = Some st' /\
    rs = to_run st'.
Proof.
  revert st. induction fs as [|frame fs IH]; intros st Hsame Hruns.
  - inversion Hruns; subst. by exists st.
  - inversion Hruns as [|frame' rest' st0 rs1 rs2 Hframe Hrest]; subst.
    destruct (frame_body_of_runs frame st rs1 Hsame Hframe) as (st1 & Hst1 & ->).
    destruct (IH st1) as (st' & Hst' & ->); [|exact Hrest|].
    { by eapply (frame_body_same_decoder dataset helper position_estimate
                   pooling_module lstm_size embedding_size weights). }
    exists st'. simpl. rewrite Hst1. by cbn [mbind option_bind].
Qed.

(** The functional constructor returns the models that the runs with its
    collaborators construct, and no other. *)
Lemma constructs_graph m :
  constructs dataset (helper_graph helper) (position_graph position_estimate)
    (loss_graph loss_function) (pooling_graph <$> pooling_module)
    lstm_size max_num_ped prediction_time trajectory_size embedding_size
    l2_norm weights tvars m
  <-> SocialModel_init dataset helper position_estimate loss_function
        pooling_module lstm_size max_num_ped prediction_time trajectory_size
        embedding_size l2_norm weights tvars = Some m.
Proof.
  split.
  - intros [rs value l2 Hruns Hvalue Hl2].
    destruct (decode_of_runs (frames trajectory_size)
                (initial_state helper pooling_module lstm_size max_num_ped
                               weights) rs) as (st & Hst & ->);
      [apply start_same_decoder|exact Hruns|].
    unfold SocialModel_init, calculate_loss. rewrite Hst.
    cbn [mbind option_bind]. rewrite Hl2. cbn [mbind option_bind].
    by rewrite Hvalue.
  - apply constructs_of_SocialModel_init;
      [apply helper_graph_can|apply pooling_graph_can
      |apply position_graph_can|apply loss_graph_can].
Qed.

End GraphRuns.

(** C8.  The collaborators may be random: each relates its arguments to
    every result that it can return, and a run of the constructor takes
    one result at each call.  For fixed trainable parameters and
    deterministic collaborators (helper, pooling, position estimate and
    loss have one result at most for their arguments), two runs of the
    full forward unroll on the same dataset element construct the same
    model, with identical predicted sequences and identical losses. *)
Theorem forward_unroll_deterministic {V Msk : Type}
    (dataset : Dataset Msk) (helper : RandomHelper)
    (position_estimate : @RandomPositionEstimate V)
    (loss_function : @RandomLossFunction V)
    (pooling_module : option (@RandomPooling Msk))
    (lstm_size max_num_ped : nat) (prediction_time trajectory_size : Z)
    (embedding_size : nat) (l2_norm : float32) (weights : Weights)
    (tvars : list TFVariable) (m1 m2 : SocialModel V Msk) :
  deterministic_helper helper ->
  deterministic_pooling pooling_module ->
  deterministic_position_estimate position_estimate ->
  deterministic_loss loss_function ->
  constructs dataset helper position_estimate loss_function pooling_module
    lstm_size max_num_ped prediction_time trajectory_size embedding_size
    l2_norm weights tvars m1 ->
  constructs dataset helper position_estimate loss_function pooling_module
    lstm_size max_num_ped prediction_time trajectory_size embedding_size
    l2_norm weights tvars m2 ->
  m1 = m2 /\
  new_coordinates m1 = new_coordinates m2 /\
  loss m1 = loss m2.
Proof.
  intros Hhelper Hpooling Hposition Hloss
         [st1 value1 l21 Hruns1 Hvalue1 Hl21] [st2 value2 l22 Hruns2 Hvalue2 Hl22].
  assert (st2 = st1) as ->.
  { symmetry.
    exact (decode_runs_deterministic dataset helper position_estimate
             pooling_module lstm_size embedding_size weights
             Hhelper Hpooling Hposition _ _ _ _ Hruns1 Hruns2). }
  assert (value2 = value1) as -> by (symmetry; exact (Hloss _ _ _ Hvalue1 Hvalue2)).
  assert (l22 = l21) as -> by congruence.
  done.
Qed.

(** Without the premise the runs differ: a position estimate that may
    return either of two predictions constructs two models with different
    predicted sequences in the scenario. *)
Lemma random_position_estimate_two_runs :
  exists m1 m2,
    constructs (Scenario.dataset 2)
      (helper_graph Scenario.helper_ground_truth) either_position
      (loss_graph Scenario.reduce_sum)
      (Some (pooling_graph Scenario.pooling_zeros)) 4 2 8 3 3 one
      Scenario.weights Scenario.tvars m1 /\
    constructs (Scenario.dataset 2)
      (helper_graph Scenario.helper_ground_truth) either_position
      (loss_graph Scenario.reduce_sum)
      (Some (pooling_graph Scenario.pooling_zeros)) 4 2 8 3 3 one
      Scenario.weights Scenario.tvars m2 /\
    new_coordinates m1 <> new_coordinates m2.
Proof.
  destruct (Scenario.model Scenario.reduce_sum 8 2 one) as [m1|] eqn:Hm1;
    [|by vm_compute in Hm1].
  destruct (SocialModel_init (Scenario.dataset 2) Scenario.helper_ground_truth
              Scenario.position_swapped Scenario.reduce_sum
              (Some Scenario.pooling_zeros) 4 2 8 3 3 one Scenario.weights
              Scenario.tvars) as [m2|] eqn:Hm2; [|by vm_compute in Hm2].
  exists m1, m2. split; [|split].
  - apply (constructs_of_SocialModel_init _ _ _ _ _
             Scenario.helper_ground_truth Scenario.position_verbatim
             Scenario.reduce_sum (Some Scenario.pooling_zeros));
      [done|done|by left|done|exact Hm1].
  - apply (constructs_of_SocialModel_init _ _ _ _ _
             Scenario.helper_ground_truth Scenario.position_swapped
             Scenario.reduce_sum (Some Scenario.pooling_zeros));
      [done|done|by right|done|exact Hm2].
  - vm_compute in Hm1, Hm2. injection Hm1 as <-. injection Hm2 as <-.
    vm_compute. discriminate.
Qed.

Lemma forward_unroll_deterministic_witness :
  deterministic_helper (helper_graph reference_helper) /\
  deterministic_pooling (Some (pooling_graph (@Scenario.pooling_zeros bool))) /\
  deterministic_position_estimate (position_graph Scenario.position_swapped) /\
  deterministic_loss (loss_graph Scenario.reduce_sum) /\
  exists m0,
    SocialModel_init (Scenario.dataset 2) reference_helper
      Scenario.position_swapped Scenario.reduce_sum
      (Some Scenario.pooling_zeros) 4 2 8 3 3 one Scenario.weights
      Scenario.tvars = Some m0 /\
    constructs (Scenario.dataset 2) (helper_graph reference_helper)
      (position_graph Scenario.position_swapped)
      (loss_graph Scenario.reduce_sum)
      (Some (pooling_graph Scenario.pooling_zeros)) 4 2 8 3 3 one
      Scenario.weights Scenario.tvars m0 /\
    forall m,
      constructs (Scenario.dataset 2) (helper_graph reference_helper)
        (position_graph Scenario.position_swapped)
        (loss_graph Scenario.reduce_sum)
        (Some (pooling_graph Scenario.pooling_zeros)) 4 2 8 3 3 one
        Scenario.weights Scenario.tvars m ->
      new_coordinates m = new_coordinates m0 /\ loss m = loss m0.
Proof.
  assert (Hhelper : deterministic_helper (helper_graph reference_helper))
    by (intros frame previous real chosen1 chosen2 -> ->; reflexivity).
  assert (Hpooling :
    deterministic_pooling (Some (pooling_graph (@Scenario.pooling_zeros bool))))
    by (intros pooling [= <-] hidden_states mask pooled1 pooled2 -> ->;
        reflexivity).
  assert (Hposition :
    deterministic_position_estimate (position_graph Scenario.position_swapped))
    by (intros layered_output next size layer estimate1 estimate2 -> ->;
        reflexivity).
  assert (Hloss : deterministic_loss (loss_graph Scenario.reduce_sum))
    by (intros stacked value1 value2 -> ->; reflexivity).
  repeat (split; [assumption|]).
  destruct (SocialModel_init (Scenario.dataset 2) reference_helper
              Scenario.position_swapped Scenario.reduce_sum
              (Some Scenario.pooling_zeros) 4 2 8 3 3 one Scenario.weights
              Scenario.tvars) as [m0|] eqn:Hm0; [|by vm_compute in Hm0].
  assert (Hruns0 :
    constructs (Scenario.dataset 2) (helper_graph reference_helper)
      (position_graph Scenario.position_swapped)
      (loss_graph Scenario.reduce_sum)
      (Some (pooling_graph Scenario.pooling_zeros)) 4 2 8 3 3 one
      Scenario.weights Scenario.tvars m0).
  { apply (constructs_graph (Scenario.dataset 2) reference_helper
             Scenario.position_swapped Scenario.reduce_sum
             (Some Scenario.pooling_zeros)). exact Hm0. }
  exists m0. split; [reflexivity|]. split; [exact Hruns0|].
  intros m Hruns.
  exact (proj2 (forward_unroll_deterministic (Scenario.dataset 2)
                  (helper_graph reference_helper)
                  (position_graph Scenario.position_swapped)
                  (loss_graph Scenario.reduce_sum)
                  (Some (pooling_graph Scenario.pooling_zeros)) 4 2 8 3 3 one
                  Scenario.weights Scenario.tvars m m0
                  Hhelper Hpooling Hposition Hloss Hruns Hruns0)).
Defined.

(** * Further properties of the constructor *)

(** ** Reads of the dataset tensors *)

Section Reads.
Context {A : Type}.
Implicit Types (row : list A) (t : list (list A)).

(** A row that is too short makes [t[:, i]] fail. *)
Lemma index_axis1_short t i :
  Exists (fun row => (length row <= i)%nat) t -> index_axis1 t i = None.
Proof.
  intros Hshort. apply mapM_None_2.
  eapply Exists_impl; [exact Hshort|].
  intros row Hrow. by apply lookup_ge_None_2.
Qed.

Lemma index_axis2_short (t : list (list (list A))) i :
  Exists (Exists (fun row => (length row <= i)%nat)) t ->
  index_axis2 t i = None.
Proof.
  intros Hshort. apply mapM_None_2.
  eapply Exists_impl; [exact Hshort|].
  intros plane Hplane. by apply index_axis1_short.
Qed.

(** [t[:, i]] reads the first [i + 1] entries of the rows only. *)
Lemma index_axis1_take t i k :
  (i < k)%nat -> index_axis1 (map (take k) t) i = index_axis1 t i.
Proof.
  intros Hi. unfold index_axis1.
  induction t as [|row t IH]; [done|].
  simpl. rewrite lookup_take_lt by done. by rewrite IH.
Qed.

Lemma index_axis2_take (t : list (list (list A))) i k :
  (i < k)%nat ->
  index_axis2 (map (map (take k)) t) i = index_axis2 t i.
Proof.
  intros Hi. unfold index_axis2.
  induction t as [|plane t IH]; [done|].
  simpl. rewrite index_axis1_take by done. by rewrite IH.
Qed.

Lemma index_axis1_agree t1 t2 i k :
  (i < k)%nat -> map (take k) t1 = map (take k) t2 ->
  index_axis1 t1 i = index_axis1 t2 i.
Proof.
  intros Hi Heq.
  by rewrite <- (index_axis1_take t1 i k), <- (index_axis1_take t2 i k), Heq.
Qed.

Lemma index_axis2_agree (t1 t2 : list (list (list A))) i k :
  (i < k)%nat -> map (map (take k)) t1 = map (map (take k)) t2 ->
  index_axis2 t1 i = index_axis2 t2 i.
Proof.
  intros Hi Heq.
  by rewrite <- (index_axis2_take t1 i k), <- (index_axis2_take t2 i k), Heq.
Qed.

(** [t[:, :, i]] of a tensor of shape [[r, k, d]] has shape [[r, k]]. *)
Lemma index_axis2_has_shape r k d (t : list (list (list A))) i m :
  has_shape3 r k d t -> index_axis2 t i = Some m -> has_shape2 r k m.
Proof.
  intros [Hr Hplanes] Hm. unfold index_axis2 in Hm.
  apply mapM_Some_1 in Hm. split.
  - apply Forall2_length in Hm. congruence.
  - clear Hr. revert Hplanes. induction Hm as [|plane col t m Hcol _ IH];
      intros Hplanes; [constructor|].
    apply Forall_cons in Hplanes as [[Hplane _] Hplanes].
    constructor; [|by apply IH].
    apply index_axis1_length in Hcol. congruence.
Qed.

End Reads.

(** ** Failures of the constructor *)

Section Failures.
Context {V Msk : Type}.
Variable dataset : Dataset Msk.
Variable position_estimate : @PositionEstimate V.
Variable embedding_size : nat.
Variable weights : Weights.

Abbreviation body := (frame_body dataset position_estimate embedding_size weights).
Abbreviation run := (decode dataset position_estimate embedding_size weights).
Implicit Types (st : LoopState V Msk) (fs : list nat).

(** An iteration fails when the next real coordinates cannot be read. *)
Lemma frame_body_no_next frame st :
  index_axis1 (tensors_0 dataset) (S frame) = None -> body frame st = None.
Proof.
  intros Hnext. unfold frame_body.
  destruct (initialize_args _ _ _ frame st) as [a|]; [|done].
  cbn [mbind option_bind]. rewrite step_initialize. cbn [mbind option_bind].
  by rewrite Hnext.
Qed.

(** An iteration fails when an argument of [decoder.initialize] cannot be
    read. *)
Lemma frame_body_no_args frame st :
  index_axis1 (tensors_3 dataset) frame = None \/
  index_axis2 (tensors_1 dataset) frame = None \/
  index_axis2 (tensors_4 dataset) frame = None ->
  body frame st = None.
Proof.
  intros Hread. unfold frame_body, initialize_args.
  destruct (index_axis1 (tensors_0 dataset) frame); [|done].
  cbn [mbind option_bind].
  destruct (index_axis1 (tensors_3 dataset) frame);
    [|done]. cbn [mbind option_bind].
  destruct (index_axis2 (tensors_1 dataset) frame);
    [|done]. cbn [mbind option_bind].
  destruct (index_axis2 (tensors_4 dataset) frame); [|done].
  destruct Hread as [Hread | [Hread | Hread]]; discriminate.
Qed.

(** The loop fails when it holds a frame whose iteration always fails. *)
Lemma decode_fails_at frame fs st :
  (forall st', body frame st' = None) -> frame ∈ fs -> run fs st = None.
Proof.
  intros Hfail Hin. revert st.
  induction fs as [|f fs IH]; intros st; [by apply not_elem_of_nil in Hin|].
  simpl. apply elem_of_cons in Hin as [<- | Hin].
  - by rewrite Hfail.
  - destruct (body f st) as [st'|]; [|done]. cbn [mbind option_bind]. by apply IH.
Qed.

Lemma last_frame_in_frames (trajectory_size : Z) :
  2 <= trajectory_size ->
  (Z.to_nat (trajectory_size - 1) - 1)%nat ∈ frames trajectory_size.
Proof. intros HT. unfold frames. apply elem_of_seq. lia. Qed.

End Failures.

(** X1.  A dataset element whose [input_data] has, for some slot, fewer
    frames than [trajectory_size] makes the constructor fail: the frame
    loop reads [input_data[:, frame + 1]] up to the frame
    [trajectory_size - 1]. *)
Theorem short_input_data_fails {V Msk : Type}
    (dataset : Dataset Msk) (helper : Helper)
    (position_estimate : @PositionEstimate V) (loss_function : @LossFunction V)
    (pooling_module : option (Pooling Msk)) (lstm_size max_num_ped : nat)
    (prediction_time trajectory_size : Z) (embedding_size : nat)
    (l2_norm : float32) (weights : Weights) (tvars : list TFVariable) :
  2 <= trajectory_size ->
  Exists (fun trajectory => (length trajectory < Z.to_nat trajectory_size)%nat)
         (tensors_0 dataset) ->
  SocialModel_init dataset helper position_estimate loss_function
    pooling_module lstm_size max_num_ped prediction_time trajectory_size
    embedding_size l2_norm weights tvars = None.
Proof.
  intros HT Hshort. unfold SocialModel_init.
  rewrite (decode_fails_at dataset position_estimate embedding_size weights
             (Z.to_nat (trajectory_size - 1) - 1)); [done| |].
  - intros st'. apply frame_body_no_next, index_axis1_short.
    eapply Exists_impl; [exact Hshort|]. simpl. lia.
  - by apply last_frame_in_frames.
Qed.

Lemma short_input_data_fails_witness :
  2 <= 3 /\
  Exists (fun trajectory => (length trajectory < Z.to_nat 3)%nat)
         (tensors_0 Scenario.short_input) /\
  SocialModel_init Scenario.short_input Scenario.helper_ground_truth
    Scenario.position_verbatim Scenario.reduce_sum (Some Scenario.pooling_zeros)
    4 2 8 3 3 one Scenario.weights Scenario.tvars = None.
Proof.
  assert (HT : 2 <= 3) by lia.
  assert (Hshort :
    Exists (fun trajectory => (length trajectory < Z.to_nat 3)%nat)
           (tensors_0 Scenario.short_input))
    by (apply Exists_cons_hd; simpl; lia).
  split; [exact HT|]. split; [exact Hshort|].
  exact (short_input_data_fails Scenario.short_input
           Scenario.helper_ground_truth Scenario.position_verbatim
           Scenario.reduce_sum (Some Scenario.pooling_zeros) 4 2 8 3 3 one
           Scenario.weights Scenario.tvars HT Hshort).
Defined.

(** X2.  A dataset element whose [all_peds], [peds_mask] or
    [all_peds_mask] has, somewhere, fewer than [trajectory_size - 1] frames
    makes the constructor fail: every frame of the loop reads the three
    tensors at its index. *)
Theorem short_neighbour_tensors_fail {V Msk : Type}
    (dataset : Dataset Msk) (helper : Helper)
    (position_estimate : @PositionEstimate V) (loss_function : @LossFunction V)
    (pooling_module : option (Pooling Msk)) (lstm_size max_num_ped : nat)
    (prediction_time trajectory_size : Z) (embedding_size : nat)
    (l2_norm : float32) (weights : Weights) (tvars : list TFVariable) :
  2 <= trajectory_size ->
  Exists (fewer_frames (Z.to_nat (trajectory_size - 1))) (tensors_3 dataset) \/
  Exists (Exists (fewer_frames (Z.to_nat (trajectory_size - 1))))
         (tensors_1 dataset) \/
  Exists (Exists (fewer_frames (Z.to_nat (trajectory_size - 1))))
         (tensors_4 dataset) ->
  SocialModel_init dataset helper position_estimate loss_function
    pooling_module lstm_size max_num_ped prediction_time trajectory_size
    embedding_size l2_norm weights tvars = None.
Proof.
  intros HT Hshort. unfold SocialModel_init.
  rewrite (decode_fails_at dataset position_estimate embedding_size weights
             (Z.to_nat (trajectory_size - 1) - 1)); [done| |].
  - intros st'. apply frame_body_no_args.
    destruct Hshort as [Hshort | [Hshort | Hshort]];
      [left; apply index_axis1_short
      |right; left; apply index_axis2_short
      |right; right; apply index_axis2_short];
      (eapply Exists_impl; [exact Hshort|]); unfold fewer_frames; simpl.
    + lia.
    + intros plane Hplane. eapply Exists_impl; [exact Hplane|]. simpl. lia.
    + intros plane Hplane. eapply Exists_impl; [exact Hplane|]. simpl. lia.
  - by apply last_frame_in_frames.
Qed.

Lemma short_neighbour_tensors_fail_witness :
  2 <= 3 /\
  Exists (Exists (fewer_frames (Z.to_nat (3 - 1))))
         (tensors_1 Scenario.short_masks) /\
  SocialModel_init Scenario.short_masks Scenario.helper_ground_truth
    Scenario.position_verbatim Scenario.reduce_sum (Some Scenario.pooling_zeros)
    4 2 8 3 3 one Scenario.weights Scenario.tvars = None.
Proof.
  assert (HT : 2 <= 3) by lia.
  assert (Hshort :
    Exists (Exists (fewer_frames (Z.to_nat (3 - 1))))
           (tensors_1 Scenario.short_masks))
    by (apply Exists_cons_hd, Exists_cons_hd; unfold fewer_frames; simpl; lia).
  split; [exact HT|]. split; [exact Hshort|].
  exact (short_neighbour_tensors_fail Scenario.short_masks
           Scenario.helper_ground_truth Scenario.position_verbatim
           Scenario.reduce_sum (Some Scenario.pooling_zeros) 4 2 8 3 3 one
           Scenario.weights Scenario.tvars HT (or_intror (or_introl Hshort))).
Defined.

(** ** What the frame loop reads of the dataset element *)

Section TwoDatasets.
Context {V Msk : Type}.
Variables d1 d2 : Dataset Msk.
Variable position_estimate : @PositionEstimate V.
Variable embedding_size : nat.
Variable weights : Weights.

Abbreviation same_reads := (same_reads d1 d2).

Lemma frame_body_reads frame (st : LoopState V Msk) :
  same_reads frame ->
  frame_body d1 position_estimate embedding_size weights frame st
  = frame_body d2 position_estimate embedding_size weights frame st.
Proof.
  intros (H0 & H3 & H1 & H4 & Hnext). unfold frame_body, initialize_args.
  by rewrite H0, H3, H1, H4, Hnext.
Qed.

Lemma decode_reads fs (st : LoopState V Msk) :
  Forall same_reads fs ->
  decode d1 position_estimate embedding_size weights fs st
  = decode d2 position_estimate embedding_size weights fs st.
Proof.
  intros Hfs. revert st. induction Hfs as [|frame fs Hframe _ IH]; intros st;
    [done|].
  simpl. rewrite (frame_body_reads frame st Hframe).
  destruct (frame_body d2 _ _ _ frame st); [|done].
  cbn [mbind option_bind]. apply IH.
Qed.

End TwoDatasets.

(** X3.  The frame loop reads [input_data] whole, and of [all_peds],
    [peds_mask] and [all_peds_mask] the first [trajectory_size - 1] frames
    only; it does not read [num_peds_frame].  Two dataset elements with the
    same [input_data] and the same first [trajectory_size - 1] frames of
    the three other tensors give the same predicted sequence and the same
    final recurrent state, whatever their counts of pedestrians and their
    last frames hold (or whether the last frame is there); with the same
    count they give the same loss. *)
Theorem last_neighbour_frame_is_not_read {V Msk : Type}
    (d1 d2 : Dataset Msk) (helper : Helper)
    (position_estimate : @PositionEstimate V) (loss_function : @LossFunction V)
    (pooling_module : option (Pooling Msk)) (lstm_size max_num_ped : nat)
    (prediction_time trajectory_size : Z) (embedding_size : nat)
    (l2_norm : float32) (weights : Weights) (tvars : list TFVariable) :
  tensors_0 d1 = tensors_0 d2 ->
  map (take (Z.to_nat (trajectory_size - 1))) (tensors_3 d1)
  = map (take (Z.to_nat (trajectory_size - 1))) (tensors_3 d2) ->
  map (map (take (Z.to_nat (trajectory_size - 1)))) (tensors_1 d1)
  = map (map (take (Z.to_nat (trajectory_size - 1)))) (tensors_1 d2) ->
  map (map (take (Z.to_nat (trajectory_size - 1)))) (tensors_4 d1)
  = map (map (take (Z.to_nat (trajectory_size - 1)))) (tensors_4 d2) ->
  new_coordinates <$>
    SocialModel_init d1 helper position_estimate loss_function pooling_module
      lstm_size max_num_ped prediction_time trajectory_size embedding_size
      l2_norm weights tvars
  = new_coordinates <$>
      SocialModel_init d2 helper position_estimate loss_function pooling_module
        lstm_size max_num_ped prediction_time trajectory_size embedding_size
        l2_norm weights tvars /\
  cell_states <$>
    SocialModel_init d1 helper position_estimate loss_function pooling_module
      lstm_size max_num_ped prediction_time trajectory_size embedding_size
      l2_norm weights tvars
  = cell_states <$>
      SocialModel_init d2 helper position_estimate loss_function pooling_module
        lstm_size max_num_ped prediction_time trajectory_size embedding_size
        l2_norm weights tvars /\
  (tensors_2 d1 = tensors_2 d2 ->
   loss <$>
     SocialModel_init d1 helper position_estimate loss_function pooling_module
       lstm_size max_num_ped prediction_time trajectory_size embedding_size
       l2_norm weights tvars
   = loss <$>
       SocialModel_init d2 helper position_estimate loss_function
         pooling_module lstm_size max_num_ped prediction_time trajectory_size
         embedding_size l2_norm weights tvars).
Proof.
  intros H0 H3 H1 H4.
  assert (Hrun :
    decode d1 position_estimate embedding_size weights (frames trajectory_size)
           (initial_state helper pooling_module lstm_size max_num_ped weights)
    = decode d2 position_estimate embedding_size weights
             (frames trajectory_size)
             (initial_state helper pooling_module lstm_size max_num_ped weights)).
  { apply decode_reads, Forall_forall. intros frame Hframe.
    unfold frames in Hframe. apply elem_of_seq in Hframe.
    unfold same_reads. rewrite H0.
    repeat split;
      [eapply index_axis1_agree|eapply index_axis2_agree|eapply index_axis2_agree];
      try eassumption; lia. }
  unfold SocialModel_init. rewrite Hrun.
  destruct (decode d2 _ _ _ _ _) as [st|]; [|done].
  cbn [mbind option_bind]. unfold calculate_loss.
  destruct (l2_loss l2_norm tvars) as [l2|]; [|done].
  cbn [mbind option_bind fmap option_fmap option_map].
  repeat split. intros H2. unfold loss_slice. by rewrite H2.
Qed.

Lemma last_neighbour_frame_is_not_read_witness :
  tensors_0 (Scenario.dataset 2) = tensors_0 (Scenario.other_last_frame 1) /\
  map (take (Z.to_nat (3 - 1))) (tensors_3 (Scenario.dataset 2))
  = map (take (Z.to_nat (3 - 1))) (tensors_3 (Scenario.other_last_frame 1)) /\
  map (map (take (Z.to_nat (3 - 1)))) (tensors_1 (Scenario.dataset 2))
  = map (map (take (Z.to_nat (3 - 1)))) (tensors_1 (Scenario.other_last_frame 1)) /\
  map (map (take (Z.to_nat (3 - 1)))) (tensors_4 (Scenario.dataset 2))
  = map (map (take (Z.to_nat (3 - 1)))) (tensors_4 (Scenario.other_last_frame 1)) /\
  new_coordinates <$> Scenario.model Scenario.reduce_sum 8 2 one
  = new_coordinates <$>
      SocialModel_init (Scenario.other_last_frame 1)
        Scenario.helper_ground_truth Scenario.position_verbatim
        Scenario.reduce_sum (Some Scenario.pooling_zeros) 4 2 8 3 3 one
        Scenario.weights Scenario.tvars.
Proof.
  assert (H0 : tensors_0 (Scenario.dataset 2)
               = tensors_0 (Scenario.other_last_frame 1)) by reflexivity.
  assert (H3 : map (take (Z.to_nat (3 - 1))) (tensors_3 (Scenario.dataset 2))
               = map (take (Z.to_nat (3 - 1)))
                     (tensors_3 (Scenario.other_last_frame 1))) by reflexivity.
  assert (H1 : map (map (take (Z.to_nat (3 - 1))))
                   (tensors_1 (Scenario.dataset 2))
               = map (map (take (Z.to_nat (3 - 1))))
                     (tensors_1 (Scenario.other_last_frame 1))) by reflexivity.
  assert (H4 : map (map (take (Z.to_nat (3 - 1))))
                   (tensors_4 (Scenario.dataset 2))
               = map (map (take (Z.to_nat (3 - 1))))
                     (tensors_4 (Scenario.other_last_frame 1))) by reflexivity.
  repeat (split; [assumption|]).
  exact (proj1 (last_neighbour_frame_is_not_read
                  (Scenario.dataset 2) (Scenario.other_last_frame 1)
                  Scenario.helper_ground_truth Scenario.position_verbatim
                  Scenario.reduce_sum (Some Scenario.pooling_zeros) 4 2 8 3 3 one
                  Scenario.weights Scenario.tvars H0 H3 H1 H4)).
Defined.

(** ** The variables of the regulariser *)

Lemma prefix_spec (s name : string) :
  String.prefix s name = true <-> exists after, name = (s ++ after)%string.
Proof.
  revert name. induction s as [|a s IH]; intros name.
  - split; [intros _; by exists name|]. by destruct name.
  - destruct name as [|b name]; simpl.
    + split; [done|]. by intros (after & [=]).
    + destruct (ascii_dec a b) as [<-|Hne].
      * rewrite IH. split.
        -- intros (after & ->). by exists after.
        -- intros (after & [= ->]). by exists after.
      * split; [done|]. intros (after & [= <- _]). done.
Qed.

(** The test [s in name] of Python is the substring test. *)
Lemma str_in_spec (s name : string) : str_in s name = true <-> contains s name.
Proof.
  unfold contains. induction name as [|a name IH].
  - change (str_in s "") with (if String.prefix s "" then true else false).
    destruct (String.prefix s "") eqn:Hprefix.
    + split; [intros _|done].
      apply prefix_spec in Hprefix as (after & Hafter).
      by exists ""%string, after.
    + split; [done|]. intros (before & after & Hname).
      destruct before; [|done]. simpl in Hname.
      assert (String.prefix s "" = true) by (apply prefix_spec; eauto).
      congruence.
  - change (str_in s (String a name))
      with (if String.prefix s (String a name) then true else str_in s name).
    destruct (String.prefix s (String a name)) eqn:Hprefix.
    + split; [intros _|done].
      apply prefix_spec in Hprefix as (after & Hafter).
      by exists ""%string, after.
    + rewrite IH. split.
      * intros (before & after & ->). by exists (String a before), after.
      * intros (before & after & Hname). destruct before as [|b before].
        -- simpl in Hname.
           assert (String.prefix s (String a name) = true)
             by (apply prefix_spec; eauto).
           congruence.
        -- injection Hname as _ ->. by exists before, after.
Qed.

Lemma negb_str_in_contains (v : TFVariable) :
  contains "bias" (name v) -> negb (str_in "bias" (name v)) = false.
Proof. intros Hbias. apply str_in_spec in Hbias. by rewrite Hbias. Qed.



(** X5.  When every trainable variable has "bias" in its name, and when
    there is no trainable variable, the constructor fails: [tf.add_n] is
    given no tensor. *)
Theorem no_weight_variable_fails {V Msk : Type}
    (dataset : Dataset Msk) (helper : Helper)
    (position_estimate : @PositionEstimate V) (loss_function : @LossFunction V)
    (pooling_module : option (Pooling Msk)) (lstm_size max_num_ped : nat)
    (prediction_time trajectory_size : Z) (embedding_size : nat)
    (l2_norm : float32) (weights : Weights) (tvars : list TFVariable) :
  Forall (fun v => contains "bias" (name v)) tvars ->
  SocialModel_init dataset helper position_estimate loss_function
    pooling_module lstm_size max_num_ped prediction_time trajectory_size
    embedding_size l2_norm weights tvars = None.
Proof.
  intros Hbias. unfold SocialModel_init, calculate_loss, l2_loss.
  assert (Hnone : List.filter (fun v => negb (str_in "bias" (name v))) tvars = []).
  { induction Hbias as [|v tvars Hv _ IH]; [done|].
    simpl. by rewrite (negb_str_in_contains v Hv). }
  rewrite Hnone. simpl.
  by destruct (decode _ _ _ _ _ _).
Qed.

Lemma no_weight_variable_fails_witness :
  Forall (fun v => contains "bias" (name v)) Scenario.only_biases /\
  SocialModel_init (Scenario.dataset 2) Scenario.helper_ground_truth
    Scenario.position_verbatim Scenario.reduce_sum (Some Scenario.pooling_zeros)
    4 2 8 3 3 one Scenario.weights Scenario.only_biases = None.
Proof.
  assert (Hbias : Forall (fun v => contains "bias" (name v)) Scenario.only_biases).
  { repeat constructor.
    - exists "Coordinates/Layer/"%string, ":0"%string. reflexivity.
    - exists "LSTM/Cell/"%string, ":0"%string. reflexivity. }
  split; [exact Hbias|].
  exact (no_weight_variable_fails
           (Scenario.dataset 2) Scenario.helper_ground_truth
           Scenario.position_verbatim Scenario.reduce_sum
           (Some Scenario.pooling_zeros) 4 2 8 3 3 one Scenario.weights
           Scenario.only_biases Hbias).
Defined.

(** ** The sign of the regulariser *)

(** Rounding keeps the sign it is given. *)
Lemma binary_round_aux_sign_clear mx ex lx :
  sign_clear (binary_round_aux prec emax false mx ex lx).
Proof.
  unfold binary_round_aux.
  destruct (shr_fexp prec emax mx ex lx) as [mrs' e'].
  destruct (shr_fexp prec emax _ e' loc_Exact) as [mrs'' e''].
  destruct (shr_m mrs''); simpl; try done.
  by destruct (_ <=? _).
Qed.

Lemma binary_round_sign_clear mx ex :
  sign_clear (binary_round prec emax false mx ex).
Proof.
  unfold binary_round. destruct (shl_align mx ex _) as [mz ez].
  apply binary_round_aux_sign_clear.
Qed.

Lemma sign_clear_not_negative x : sign_clear x -> not_negative x.
Proof. by destruct x as [s|s| |s m e]; simpl; try intros ->. Qed.

(** A square is not negative. *)
Lemma mul_self_sign_clear x : sign_clear (mul x x).
Proof.
  destruct x as [s|s| |s m e]; unfold mul; simpl; try done;
    try (by destruct s).
  rewrite xorb_nilpotent. apply binary_round_aux_sign_clear.
Qed.

Lemma add_sign_clear x y : sign_clear x -> sign_clear y -> sign_clear (add x y).
Proof.
  destruct x as [sx|sx| |sx mx ex], y as [sy|sy| |sy my ey];
    unfold add; simpl; try done; try (by intros -> ->).
  intros -> ->. simpl.
  destruct (shl_align mx ex _) as [mx' ex'], (shl_align my ey _) as [my' ey'].
  simpl. apply binary_round_sign_clear.
Qed.

Lemma div_two_sign_clear x : sign_clear x -> sign_clear (div x two).
Proof.
  intros Hx. change two with (S754_finite false 8388608 (-22)). unfold div.
  destruct x as [s|s| |s m e]; simpl in Hx; subst; cbn [SFdiv xorb]; try done.
  destruct (SFdiv_core_binary prec emax (Z.pos m) e _ _) as [[mz ez] lz].
  apply binary_round_aux_sign_clear.
Qed.

Lemma sum_sign_clear (l : list float32) (x : float32) :
  sign_clear x -> Forall sign_clear l -> sign_clear (fold_left add l x).
Proof.
  intros Hx Hl. revert x Hx. induction Hl as [|y l Hy _ IH]; intros x Hx;
    [done|].
  simpl. apply IH. by apply add_sign_clear.
Qed.

Lemma tf_nn_l2_loss_sign_clear (t : vec) : sign_clear (tf_nn_l2_loss t).
Proof.
  unfold tf_nn_l2_loss. apply div_two_sign_clear.
  assert (Hfold : forall acc, sign_clear acc ->
            sign_clear (fold_left (fun acc x => add acc (mul x x)) t acc)).
  { induction t as [|x t IH]; intros acc Hacc; [done|].
    simpl. apply IH, add_sign_clear; [done|apply mul_self_sign_clear]. }
  by apply Hfold.
Qed.

Lemma mul_not_negative x y :
  sign_clear x -> not_negative y -> not_negative (mul x y).
Proof.
  destruct x as [sx|sx| |sx mx ex], y as [sy|sy| |sy my ey];
    unfold not_negative, mul; simpl; try done;
    intros ->; simpl; try done; try (by destruct sy).
  destruct sy; [done|]. intros _.
  apply sign_clear_not_negative, binary_round_aux_sign_clear.
Qed.

(** X6.  With a factor [l2_norm] that is not negative the regularisation
    term is never negative: it is a zero, a positive number, plus infinity
    or not a number, whatever the trainable variables hold. *)
Theorem regularisation_is_not_negative (l2_norm : float32)
    (tvars : list TFVariable) (l2 : float32) :
  not_negative l2_norm ->
  l2_loss l2_norm tvars = Some l2 ->
  not_negative l2.
Proof.
  intros Hnorm. unfold l2_loss.
  set (terms := map _ (List.filter _ tvars)).
  assert (Hterms : Forall sign_clear terms).
  { unfold terms. apply Forall_forall. intros x Hx.
    apply list_elem_of_fmap in Hx as (v & -> & _).
    apply tf_nn_l2_loss_sign_clear. }
  destruct terms as [|x rest]; [done|].
  simpl. intros [= <-].
  apply Forall_cons in Hterms as [Hx Hrest].
  apply mul_not_negative; [|done]. by apply sum_sign_clear.
Qed.

Lemma regularisation_is_not_negative_witness :
  not_negative one /\
  l2_loss one Scenario.tvars = Some (div one two) /\
  not_negative (div one two).
Proof.
  assert (Hnorm : not_negative one) by reflexivity.
  assert (Hl2 : l2_loss one Scenario.tvars = Some (div one two))
    by reflexivity.
  split; [exact Hnorm|]. split; [exact Hl2|].
  exact (regularisation_is_not_negative one Scenario.tvars (div one two)
           Hnorm Hl2).
Defined.

(** ** What the decoder receives *)

Lemma relu_not_negative x : not_negative (relu x).
Proof.
  unfold not_negative, relu. destruct (ltb x zero) eqn:Hx; [reflexivity|exact Hx].
Qed.

(** The coordinate embedding has one row of [embedding_size] entries per
    input row, none of them negative. *)
Lemma coordinates_layer_shape embedding_size weights (inputs : mat) :
  has_shape2 (length inputs) embedding_size
             (Dense_call (the_coordinates_layer embedding_size weights) inputs) /\
  Forall (Forall not_negative)
         (Dense_call (the_coordinates_layer embedding_size weights) inputs).
Proof.
  unfold Dense_call, has_shape2. rewrite length_map. split; [split; [done|]|];
    apply Forall_forall; intros row Hrow;
    apply list_elem_of_fmap in Hrow as (x & -> & _).
  - by rewrite length_map, affine_length.
  - apply Forall_forall. intros y Hy.
    apply list_elem_of_fmap in Hy as (z & -> & _). apply relu_not_negative.
Qed.

(** X7.  At every frame of the loop, whatever the state, the decoder is
    initialised with the frame index, with the embeddings of
    [input_data[:, frame]] and [all_peds[:, frame]], of shape
    [[max_num_ped, embedding_size]] and without a negative entry (the layer
    ends in a ReLU), and with the two masks of the frame, of shape
    [[max_num_ped, max_num_ped]]. *)
Theorem initialize_receives_the_frame {V Msk : Type}
    (dataset : Dataset Msk) (max_num_ped : nat) (trajectory_size : Z)
    (embedding_size : nat) (weights : Weights) (frame : nat)
    (st : LoopState V Msk) :
  valid_dataset max_num_ped trajectory_size dataset ->
  (frame < Z.to_nat (trajectory_size - 1))%nat ->
  exists a coordinates all_coordinates,
    initialize_args dataset embedding_size weights frame st = Some a /\
    arg_frame a = frame /\
    index_axis1 (tensors_0 dataset) frame = Some coordinates /\
    index_axis1 (tensors_3 dataset) frame = Some all_coordinates /\
    arg_coordinates_preprocessed a
    = Dense_call (the_coordinates_layer embedding_size weights) coordinates /\
    arg_all_peds_preprocessed a
    = Dense_call (the_coordinates_layer embedding_size weights) all_coordinates /\
    index_axis2 (tensors_1 dataset) frame = Some (arg_peds_mask a) /\
    index_axis2 (tensors_4 dataset) frame = Some (arg_all_peds_mask a) /\
    has_shape2 max_num_ped embedding_size (arg_coordinates_preprocessed a) /\
    has_shape2 max_num_ped embedding_size (arg_all_peds_preprocessed a) /\
    has_shape2 max_num_ped max_num_ped (arg_peds_mask a) /\
    has_shape2 max_num_ped max_num_ped (arg_all_peds_mask a) /\
    Forall (Forall not_negative) (arg_coordinates_preprocessed a) /\
    Forall (Forall not_negative) (arg_all_peds_preprocessed a).
Proof.
  intros Hvalid Hframe.
  destruct (initialize_args_valid dataset embedding_size weights max_num_ped
              trajectory_size Hvalid frame st)
    as (co & al & m & am & Hco & Hlen & Hal & Hm & Ham & Ha); [lia|].
  assert (Hal_len : length al = max_num_ped).
  { apply index_axis1_length in Hal. rewrite Hal.
    by destruct Hvalid as (_ & _ & _ & [Hall _] & _). }
  destruct Hvalid as (_ & Hmask & _ & _ & Hallmask).
  eexists _, co, al. split; [exact Ha|]. simpl.
  destruct (coordinates_layer_shape embedding_size weights co) as [Hs1 Hn1].
  destruct (coordinates_layer_shape embedding_size weights al) as [Hs2 Hn2].
  rewrite Hlen in Hs1. rewrite Hal_len in Hs2.
  repeat match goal with |- _ /\ _ => split end; try done.
  - exact (index_axis2_has_shape _ _ _ _ _ _ Hmask Hm).
  - exact (index_axis2_has_shape _ _ _ _ _ _ Hallmask Ham).
Qed.

Lemma initialize_receives_the_frame_witness :
  valid_dataset 2 3 (Scenario.dataset 2) /\
  (1 < Z.to_nat (3 - 1))%nat /\
  exists a,
    initialize_args (Scenario.dataset 2) 3 Scenario.weights 1
      (initial_state (V:=vec) Scenario.helper_ground_truth
         (Some Scenario.pooling_zeros) 4 2 Scenario.weights) = Some a /\
    has_shape2 2 3 (arg_coordinates_preprocessed a).
Proof.
  assert (Hvalid : valid_dataset 2 3 (Scenario.dataset 2))
    by (apply scenario_dataset_valid; lia).
  assert (Hframe : (1 < Z.to_nat (3 - 1))%nat) by (simpl; lia).
  split; [exact Hvalid|]. split; [exact Hframe|].
  destruct (initialize_receives_the_frame (Scenario.dataset 2) 2 3 3
              Scenario.weights 1
              (initial_state (V:=vec) Scenario.helper_ground_truth
                 (Some Scenario.pooling_zeros) 4 2 Scenario.weights)
              Hvalid Hframe)
    as (a & _ & _ & Ha & _ & _ & _ & _ & _ & _ & _ & Hshape & _).
  exists a. split; [exact Ha|exact Hshape].
Defined.

(** X8.  The loop feeds every frame into the next: the iteration of
    [frame] appends the first result of [position_estimate] to the
    predictions, and at [frame + 1] the decoder is initialised with the
    second result of the same call as previous prediction (never with
    [None] after the first frame) and with the states and the output that
    its own step returned at [frame]. *)
Theorem next_frame_receives_the_results {V Msk : Type}
    (dataset : Dataset Msk) (helper : Helper)
    (position_estimate : @PositionEstimate V)
    (pooling_module : option (Pooling Msk))
    (lstm_size max_num_ped : nat) (trajectory_size : Z) (embedding_size : nat)
    (weights : Weights) (frame : nat) :
  valid_dataset max_num_ped trajectory_size dataset ->
  (S frame < Z.to_nat (trajectory_size - 1))%nat ->
  exists before after cell_output cell_states layered_output next a,
    decode dataset position_estimate embedding_size weights (seq 0 frame)
           (initial_state helper pooling_module lstm_size max_num_ped weights)
    = Some before /\
    frame_body dataset position_estimate embedding_size weights frame before
    = Some after /\
    step (st_decoder after) = Some (cell_output, cell_states, layered_output) /\
    index_axis1 (tensors_0 dataset) (S frame) = Some next /\
    st_new_coordinates after =
    st_new_coordinates before ++
    [(position_estimate layered_output next output_size
        (Dense_call (the_coordinates_layer embedding_size weights))).1] /\
    initialize_args dataset embedding_size weights (S frame) after = Some a /\
    arg_frame a = S frame /\
    arg_new_coordinates_processed a =
    Some (position_estimate layered_output next output_size
            (Dense_call (the_coordinates_layer embedding_size weights))).2 /\
    arg_cell_states a = cell_states /\
    arg_hidden_states a = cell_output.
Proof.
  intros Hvalid Hframe.
  destruct (decode_frames_is_Some dataset position_estimate embedding_size
              weights max_num_ped trajectory_size Hvalid
              (initial_state helper pooling_module lstm_size max_num_ped weights))
    as [st Hst].
  assert (Hloop : (frame < Z.to_nat (trajectory_size - 1))%nat) by lia.
  destruct (decode_frame _ _ _ _ _ frame _ st Hloop Hst)
    as (before & after & Hbefore & Hbody & _).
  destruct (frame_body_inv _ _ _ _ _ _ _ Hbody) as (a0 & next & _ & Hnext & Hafter).
  cbv zeta in Hafter.
  destruct (initialize_args_valid dataset embedding_size weights max_num_ped
              trajectory_size Hvalid (S frame) after)
    as (co & al & m & am & _ & _ & _ & _ & _ & Ha); [lia|].
  eexists before, after, _, _, _, next, _.
  split; [exact Hbefore|]. split; [exact Hbody|].
  split; [rewrite Hafter; cbn [st_decoder]; apply step_initialize|].
  split; [exact Hnext|]. cbv zeta.
  split; [by rewrite Hafter|]. split; [exact Ha|].
  cbn [arg_frame arg_new_coordinates_processed arg_cell_states arg_hidden_states].
  by rewrite Hafter.
Qed.

Lemma next_frame_receives_the_results_witness :
  valid_dataset 2 3 (Scenario.dataset 2) /\
  (1 < Z.to_nat (3 - 1))%nat /\
  exists after a,
    frame_body (Scenario.dataset 2) Scenario.position_verbatim 3
               Scenario.weights 0
               (initial_state Scenario.helper_ground_truth
                              (Some Scenario.pooling_zeros)
                              4 2 Scenario.weights) = Some after /\
    initialize_args (Scenario.dataset 2) 3 Scenario.weights 1 after = Some a /\
    arg_new_coordinates_processed a =
    Some (Dense_call (the_coordinates_layer 3 Scenario.weights)
                     [Scenario.p 2 1; Scenario.p 1 6]).
Proof.
  assert (Hvalid : valid_dataset 2 3 (Scenario.dataset 2))
    by (apply scenario_dataset_valid; lia).
  assert (Hframe : (1 < Z.to_nat (3 - 1))%nat) by (simpl; lia).
  split; [exact Hvalid|]. split; [exact Hframe|].
  destruct (next_frame_receives_the_results
              (Scenario.dataset 2) Scenario.helper_ground_truth
              Scenario.position_verbatim (Some Scenario.pooling_zeros)
              4 2 3 3 Scenario.weights 0 Hvalid Hframe)
    as (before & after & co & cs & lo & next & a
        & Hbefore & Hbody & _ & Hnext & _ & Ha & _ & Hprev & _).
  injection Hbefore as <-.
  exists after, a. split; [exact Hbody|]. split; [exact Ha|].
  rewrite Hprev. vm_compute in Hnext. injection Hnext as <-. reflexivity.
Defined.

(** ** The stacked predictions *)

Lemma slice_from_one {A} (l : list A) :
  (1 <= length l)%nat -> slice_from 1 l = drop 1 l.
Proof.
  intros Hlen. unfold slice_from. simpl.
  replace (Z.to_nat (Z.min 1 (Z.of_nat (length l)))) with 1%nat by lia. done.
Qed.

(** A column of a tensor with rows of [k] entries, read past the first
    entry of every row. *)
Lemma index_axis1_after_first {A} (t : list (list A)) (k j : nat) :
  Forall (fun row => length row = k) t -> (S j < k)%nat ->
  index_axis1 t (S j) = Some (omap (fun row => row !! j) (map (slice_from 1) t)).
Proof.
  intros Hrows Hj. unfold index_axis1.
  induction Hrows as [|row t Hrow _ IH]; [done|].
  simpl. rewrite IH. rewrite slice_from_one by lia.
  rewrite lookup_drop. simpl.
  destruct (lookup_lt_is_Some_2 row (S j)) as [x Hx]; [lia|].
  by rewrite Hx.
Qed.

(** The real coordinates of the frames that follow the first, frame by
    frame, are the transposed tensor [input_data[:, 1:, :]]. *)
Lemma next_frames_transpose {A} (t : list (list A)) (r k : nat) :
  has_shape2 r k t -> (1 <= r)%nat -> (1 <= k)%nat ->
  mapM (fun frame => index_axis1 t (S frame)) (seq 0 (k - 1))
  = Some (transpose_01 (map (slice_from 1) t)).
Proof.
  intros [Hr Hrows] Hr1 Hk1. apply mapM_Some. unfold transpose_01.
  assert (Hwidth : match map (slice_from 1) t with
                   | [] => 0%nat
                   | row :: _ => length row
                   end = (k - 1)%nat).
  { destruct t as [|row t]; [simpl in Hr; lia|]. simpl.
    apply Forall_cons in Hrows as [Hrow _].
    rewrite slice_from_one, length_drop by lia. lia. }
  rewrite Hwidth. apply Forall2_fmap_r, Forall_Forall2_diag, Forall_forall.
  intros j Hj. apply elem_of_seq in Hj.
  apply (index_axis1_after_first t k j Hrows). lia.
Qed.

(** X9.  Teacher forcing, for every size: when [position_estimate] returns
    the real next coordinates as its prediction, the stacked predictions
    of a valid dataset element with at least one slot and two frames are
    [input_data[:, 1:, :]] transposed to [[T-1, N, 2]], whatever the
    helper, the pooling, the weights and the loss function. *)
Theorem teacher_forced_predictions {Msk : Type}
    (dataset : Dataset Msk) (helper : Helper)
    (position_estimate : @PositionEstimate vec)
    (loss_function : @LossFunction vec)
    (pooling_module : option (Pooling Msk)) (lstm_size max_num_ped : nat)
    (prediction_time trajectory_size : Z) (embedding_size : nat)
    (l2_norm : float32) (weights : Weights) (tvars : list TFVariable) :
  valid_dataset max_num_ped trajectory_size dataset ->
  (1 <= max_num_ped)%nat ->
  2 <= trajectory_size ->
  has_weight_variable tvars ->
  (forall layered_output next size layer,
     (position_estimate layered_output next size layer).1 = next) ->
  exists m,
    SocialModel_init dataset helper position_estimate loss_function
      pooling_module lstm_size max_num_ped prediction_time trajectory_size
      embedding_size l2_norm weights tvars = Some m /\
    new_coordinates m = transpose_01 (map (slice_from 1) (tensors_0 dataset)).
Proof.
  intros Hvalid HN HT Hvar Hverbatim.
  destruct (decode_frames_is_Some dataset position_estimate embedding_size
              weights max_num_ped trajectory_size Hvalid
              (initial_state helper pooling_module lstm_size max_num_ped weights))
    as [st Hst].
  destruct (SocialModel_init_Some dataset helper position_estimate loss_function
              pooling_module lstm_size max_num_ped prediction_time
              trajectory_size embedding_size l2_norm weights tvars st _ Hst
              (l2_loss_stated l2_norm tvars Hvar)) as (m & Hm & Hnew & _).
  exists m. split; [exact Hm|]. rewrite Hnew.
  destruct (decode_verbatim dataset position_estimate embedding_size weights
              _ _ _ Hverbatim Hst) as (new & Hmap & ->).
  simpl. destruct Hvalid as ([Hrows Hshape] & _).
  assert (Hinput : has_shape2 max_num_ped (Z.to_nat trajectory_size)
                              (tensors_0 dataset)).
  { split; [done|]. eapply Forall_impl; [exact Hshape|]. by intros row [? _]. }
  unfold frames in Hmap.
  replace (Z.to_nat (trajectory_size - 1))
    with (Z.to_nat trajectory_size - 1)%nat in Hmap by lia.
  rewrite (next_frames_transpose _ _ _ Hinput) in Hmap by lia.
  by injection Hmap as <-.
Qed.

Lemma teacher_forced_predictions_witness :
  valid_dataset 2 3 (Scenario.dataset 2) /\ (1 <= 2)%nat /\ 2 <= 3 /\
  has_weight_variable Scenario.tvars /\
  (forall layered_output next size layer,
     (Scenario.position_verbatim layered_output next size layer).1 = next) /\
  exists m,
    SocialModel_init (Scenario.dataset 2) reference_helper
      Scenario.position_verbatim Scenario.reduce_sum None 4 2 8 3 3 one
      Scenario.weights Scenario.tvars = Some m /\
    new_coordinates m =
    [ [Scenario.p 2 1; Scenario.p 1 6]; [Scenario.p 3 1; Scenario.p 1 7] ].
Proof.
  assert (Hvalid : valid_dataset 2 3 (Scenario.dataset 2))
    by (apply scenario_dataset_valid; lia).
  assert (HN : (1 <= 2)%nat) by lia.
  assert (HT : 2 <= 3) by lia.
  assert (Hvar : has_weight_variable Scenario.tvars)
    by exact scenario_has_weight_variable.
  assert (Hverbatim : forall layered_output next size layer,
            (Scenario.position_verbatim layered_output next size layer).1 = next)
    by reflexivity.
  repeat (split; [assumption|]).
  destruct (teacher_forced_predictions (Scenario.dataset 2) reference_helper
              Scenario.position_verbatim Scenario.reduce_sum None 4 2 8 3 3 one
              Scenario.weights Scenario.tvars Hvalid HN HT Hvar Hverbatim)
    as (m & Hm & Hnew).
  exists m. split; [exact Hm|]. rewrite Hnew. reflexivity.
Defined.

Section StackedShape.
Context {V Msk : Type}.
Variable dataset : Dataset Msk.
Variable position_estimate : @PositionEstimate V.
Variable embedding_size : nat.
Variable weights : Weights.
Variable max_num_ped : nat.
Variable trajectory_size : Z.
Hypothesis Hvalid : valid_dataset max_num_ped trajectory_size dataset.
Hypothesis one_per_slot :
  forall layered_output next size layer,
    length (position_estimate layered_output next size layer).1 = length next.

Abbreviation body := (frame_body dataset position_estimate embedding_size weights).
Abbreviation run := (decode dataset position_estimate embedding_size weights).
Implicit Types (st : LoopState V Msk) (fs : list nat).

Lemma frame_body_one_per_slot frame st st' :
  Forall (fun prediction => length prediction = max_num_ped)
         (st_new_coordinates st) ->
  body frame st = Some st' ->
  Forall (fun prediction => length prediction = max_num_ped)
         (st_new_coordinates st').
Proof.
  intros Hst Hbody.
  destruct (frame_body_inv _ _ _ _ _ _ _ Hbody) as (a & next & _ & Hnext & ->).
  cbn [st_new_coordinates]. apply Forall_app. split; [exact Hst|].
  constructor; [|constructor]. rewrite one_per_slot.
  rewrite (index_axis1_length _ _ _ Hnext).
  by destruct Hvalid as ([? _] & _).
Qed.

Lemma decode_one_per_slot fs st st' :
  Forall (fun prediction => length prediction = max_num_ped)
         (st_new_coordinates st) ->
  run fs st = Some st' ->
  Forall (fun prediction => length prediction = max_num_ped)
         (st_new_coordinates st').
Proof.
  revert st. induction fs as [|frame fs IH]; intros st Hst Hrun.
  - by injection Hrun as <-.
  - simpl in Hrun. destruct (body frame st) as [st1|] eqn:Hbody; [|discriminate].
    eapply IH; [|exact Hrun]. by eapply frame_body_one_per_slot.
Qed.

End StackedShape.

(** X10.  When [position_estimate] returns one prediction per slot of the
    next coordinates it is given, the stacked predictions of a valid
    dataset element have shape [[trajectory_size - 1, max_num_ped]], as the
    comment of line 152 says. *)
Theorem stacked_predictions_shape {V Msk : Type}
    (dataset : Dataset Msk) (helper : Helper)
    (position_estimate : @PositionEstimate V) (loss_function : @LossFunction V)
    (pooling_module : option (Pooling Msk)) (lstm_size max_num_ped : nat)
    (prediction_time trajectory_size : Z) (embedding_size : nat)
    (l2_norm : float32) (weights : Weights) (tvars : list TFVariable) :
  valid_dataset max_num_ped trajectory_size dataset ->
  2 <= trajectory_size ->
  has_weight_variable tvars ->
  (forall layered_output next size layer,
     length (position_estimate layered_output next size layer).1 = length next) ->
  exists m,
    SocialModel_init dataset helper position_estimate loss_function
      pooling_module lstm_size max_num_ped prediction_time trajectory_size
      embedding_size l2_norm weights tvars = Some m /\
    has_shape2 (Z.to_nat (trajectory_size - 1)) max_num_ped (new_coordinates m).
Proof.
  intros Hvalid HT Hvar Hper.
  destruct (decode_frames_is_Some dataset position_estimate embedding_size
              weights max_num_ped trajectory_size Hvalid
              (initial_state helper pooling_module lstm_size max_num_ped weights))
    as [st Hst].
  destruct (SocialModel_init_Some dataset helper position_estimate loss_function
              pooling_module lstm_size max_num_ped prediction_time
              trajectory_size embedding_size l2_norm weights tvars st _ Hst
              (l2_loss_stated l2_norm tvars Hvar)) as (m & Hm & Hnew & _).
  exists m. split; [exact Hm|]. rewrite Hnew. split.
  - destruct (decode_appends _ _ _ _ _ _ _ Hst) as (new & Hst_new & Hlen).
    rewrite Hst_new. simpl. rewrite Hlen. unfold frames. by rewrite length_seq.
  - eapply (decode_one_per_slot dataset position_estimate embedding_size
              weights max_num_ped trajectory_size Hvalid Hper); [|exact Hst].
    constructor.
Qed.

Lemma stacked_predictions_shape_witness :
  valid_dataset 2 3 (Scenario.dataset 2) /\ 2 <= 3 /\
  has_weight_variable Scenario.tvars /\
  (forall layered_output next size layer,
     length (Scenario.position_verbatim layered_output next size layer).1
     = length next) /\
  exists m,
    Scenario.model Scenario.reduce_sum 8 2 one = Some m /\
    has_shape2 2 2 (new_coordinates m).
Proof.
  assert (Hvalid : valid_dataset 2 3 (Scenario.dataset 2))
    by (apply scenario_dataset_valid; lia).
  assert (HT : 2 <= 3) by lia.
  assert (Hvar : has_weight_variable Scenario.tvars)
    by exact scenario_has_weight_variable.
  assert (Hper : forall layered_output next size layer,
            length (Scenario.position_verbatim layered_output next size layer).1
            = length next) by reflexivity.
  repeat (split; [assumption|]).
  exact (stacked_predictions_shape (Scenario.dataset 2)
           Scenario.helper_ground_truth Scenario.position_verbatim
           Scenario.reduce_sum (Some Scenario.pooling_zeros) 4 2 8 3 3 one
           Scenario.weights Scenario.tvars Hvalid HT Hvar Hper).
Defined.

(** ** The attribute [coordinates_preprocessed] *)

(** X11.  [self.coordinates_preprocessed] is assigned at every frame, and
    the constructed model keeps the last assignment only: the embedding of
    [input_data[:, trajectory_size - 2]]. *)
Theorem coordinates_preprocessed_is_the_last_frame {V Msk : Type}
    (dataset : Dataset Msk) (helper : Helper)
    (position_estimate : @PositionEstimate V) (loss_function : @LossFunction V)
    (pooling_module : option (Pooling Msk)) (lstm_size max_num_ped : nat)
    (prediction_time trajectory_size : Z) (embedding_size : nat)
    (l2_norm : float32) (weights : Weights) (tvars : list TFVariable) :
  valid_dataset max_num_ped trajectory_size dataset ->
  2 <= trajectory_size ->
  has_weight_variable tvars ->
  exists m coordinates,
    SocialModel_init dataset helper position_estimate loss_function
      pooling_module lstm_size max_num_ped prediction_time trajectory_size
      embedding_size l2_norm weights tvars = Some m /\
    index_axis1 (tensors_0 dataset) (Z.to_nat (trajectory_size - 2))
    = Some coordinates /\
    coordinates_preprocessed m =
    Some (Dense_call (the_coordinates_layer embedding_size weights) coordinates).
Proof.
  intros Hvalid HT Hvar.
  destruct (decode_frames_is_Some dataset position_estimate embedding_size
              weights max_num_ped trajectory_size Hvalid
              (initial_state helper pooling_module lstm_size max_num_ped weights))
    as [st Hst].
  assert (Hlast : (Z.to_nat (trajectory_size - 2)
                   < Z.to_nat (trajectory_size - 1))%nat) by lia.
  destruct (decode_frame _ _ _ _ _ _ _ st Hlast Hst)
    as (before & after & _ & Hbody & Hafter & _).
  replace (S (Z.to_nat (trajectory_size - 2)))
    with (Z.to_nat (trajectory_size - 1)) in Hafter by lia.
  fold (frames trajectory_size) in Hafter.
  rewrite Hst in Hafter. injection Hafter as <-.
  destruct (frame_body_inv _ _ _ _ _ _ _ Hbody) as (a & next & Ha & _ & Hrecord).
  destruct (initialize_args_valid dataset embedding_size weights max_num_ped
              trajectory_size Hvalid (Z.to_nat (trajectory_size - 2)) before)
    as (co & al & mk & am & Hco & _ & _ & _ & _ & Ha'); [lia|].
  rewrite Ha' in Ha. injection Ha as <-.
  unfold SocialModel_init. rewrite Hst. cbn [mbind option_bind].
  unfold calculate_loss. rewrite (l2_loss_stated l2_norm tvars Hvar).
  cbn [mbind option_bind].
  eexists _, co. split; [reflexivity|]. split; [exact Hco|].
  cbn [coordinates_preprocessed]. by rewrite Hrecord.
Qed.

Lemma coordinates_preprocessed_is_the_last_frame_witness :
  valid_dataset 2 3 (Scenario.dataset 2) /\ 2 <= 3 /\
  has_weight_variable Scenario.tvars /\
  exists m,
    Scenario.model Scenario.reduce_sum 8 2 one = Some m /\
    coordinates_preprocessed m =
    Some (Dense_call (the_coordinates_layer 3 Scenario.weights)
                     [Scenario.p 2 1; Scenario.p 1 6]).
Proof.
  assert (Hvalid : valid_dataset 2 3 (Scenario.dataset 2))
    by (apply scenario_dataset_valid; lia).
  assert (HT : 2 <= 3) by lia.
  assert (Hvar : has_weight_variable Scenario.tvars)
    by exact scenario_has_weight_variable.
  repeat (split; [assumption|]).
  destruct (coordinates_preprocessed_is_the_last_frame (Scenario.dataset 2)
              Scenario.helper_ground_truth Scenario.position_verbatim
              Scenario.reduce_sum (Some Scenario.pooling_zeros) 4 2 8 3 3 one
              Scenario.weights Scenario.tvars Hvalid HT Hvar)
    as (m & co & Hm & Hco & Hpre).
  exists m. split; [exact Hm|]. rewrite Hpre.
  vm_compute in Hco. injection Hco as <-. reflexivity.
Defined.

(** ** The window of the loss in time *)

(** [l[start:]] with a start that is not negative drops the first [start]
    entries, all of them when there are fewer. *)
Lemma slice_from_nonneg {A} (start : Z) (l : list A) :
  0 <= start -> slice_from start l = drop (Z.to_nat start) l.
Proof.
  intros Hstart. unfold slice_from.
  destruct (Z.ltb_spec start 0) as [|_]; [lia|].
  destruct (Z.le_gt_cases start (Z.of_nat (length l))) as [Hle|Hgt].
  - by rewrite Z.min_l.
  - rewrite Z.min_r by lia. rewrite Nat2Z.id.
    rewrite !drop_ge; [done|lia|lia].
Qed.

(** X12.  For [prediction_time >= 1] the loss depends on the stacked
    predictions through their last [prediction_time] steps only: the
    predictions of the frames before this window do not reach the loss
    function. *)
Theorem loss_ignores_steps_before_window {V Msk : Type}
    (dataset : Dataset Msk) (loss_function : @LossFunction V)
    (prediction_time : Z) (l2_norm : float32) (tvars : list TFVariable)
    (stacked1 stacked2 : list (list V)) :
  1 <= prediction_time ->
  last_steps (Z.to_nat prediction_time) stacked1
  = last_steps (Z.to_nat prediction_time) stacked2 ->
  calculate_loss dataset loss_function prediction_time l2_norm tvars stacked1
  = calculate_loss dataset loss_function prediction_time l2_norm tvars stacked2.
Proof.
  intros Hp Hlast. unfold calculate_loss, loss_slice.
  rewrite !slice_from_neg by done. unfold last_steps in Hlast.
  by rewrite Hlast.
Qed.

Lemma loss_ignores_steps_before_window_witness :
  1 <= 1 /\
  last_steps (Z.to_nat 1) Scenario.padded_1
  = last_steps (Z.to_nat 1)
      [ [Scenario.p 7 7]; [Scenario.p 0 0];
        [Scenario.p 3 1; Scenario.p 1 7; Scenario.p 8 8] ] /\
  calculate_loss (Scenario.dataset 2) Scenario.reduce_sum 1 one Scenario.tvars
                 Scenario.padded_1
  = calculate_loss (Scenario.dataset 2) Scenario.reduce_sum 1 one Scenario.tvars
      [ [Scenario.p 7 7]; [Scenario.p 0 0];
        [Scenario.p 3 1; Scenario.p 1 7; Scenario.p 8 8] ].
Proof.
  assert (Hp : 1 <= 1) by lia.
  assert (Hlast :
    last_steps (Z.to_nat 1) Scenario.padded_1
    = last_steps (Z.to_nat 1)
        [ [Scenario.p 7 7]; [Scenario.p 0 0];
          [Scenario.p 3 1; Scenario.p 1 7; Scenario.p 8 8] ]) by reflexivity.
  split; [exact Hp|]. split; [exact Hlast|].
  exact (loss_ignores_steps_before_window (Scenario.dataset 2)
           Scenario.reduce_sum 1 one Scenario.tvars Scenario.padded_1 _
           Hp Hlast).
Defined.

(** X13.  A [prediction_time] that is zero or negative raises no error:
    the slice [[-prediction_time:]] then starts at the step
    [-prediction_time], so the loss is computed from the steps that follow
    the first [-prediction_time] ones, and from no step at all when
    [prediction_time <= -(trajectory_size - 1)]. *)
Theorem non_positive_prediction_time_skips_steps {V Msk : Type}
    (dataset : Dataset Msk) (helper : Helper)
    (position_estimate : @PositionEstimate V) (loss_function : @LossFunction V)
    (pooling_module : option (Pooling Msk)) (lstm_size max_num_ped : nat)
    (prediction_time trajectory_size : Z) (embedding_size : nat)
    (l2_norm : float32) (weights : Weights) (tvars : list TFVariable) :
  valid_dataset max_num_ped trajectory_size dataset ->
  2 <= trajectory_size ->
  has_weight_variable tvars ->
  prediction_time <= 0 ->
  exists m l2,
    SocialModel_init dataset helper position_estimate loss_function
      pooling_module lstm_size max_num_ped prediction_time trajectory_size
      embedding_size l2_norm weights tvars = Some m /\
    l2_loss l2_norm tvars = Some l2 /\
    loss m =
    add (div (loss_function
                (map (take (Z.to_nat (tensors_2 dataset)))
                     (drop (Z.to_nat (- prediction_time)) (new_coordinates m))))
             (of_Z (tensors_2 dataset)))
        l2 /\
    (prediction_time <= - (trajectory_size - 1) ->
     loss m = add (div (loss_function []) (of_Z (tensors_2 dataset))) l2).
Proof.
  intros Hvalid HT Hvar Hp.
  destruct (SocialModel_init_valid dataset helper position_estimate
              loss_function pooling_module lstm_size max_num_ped
              prediction_time trajectory_size embedding_size l2_norm weights
              tvars Hvalid Hvar) as (m & Hm & Hlen & Hloss).
  exists m, (stated_regularization half_squared_norm l2_norm tvars).
  split; [exact Hm|]. split; [by apply l2_loss_stated|].
  assert (Hslice :
    loss_slice dataset prediction_time (new_coordinates m)
    = map (take (Z.to_nat (tensors_2 dataset)))
          (drop (Z.to_nat (- prediction_time)) (new_coordinates m))).
  { unfold loss_slice. rewrite slice_from_nonneg by lia.
    apply map_ext. intros row. apply slice_to_nonneg.
    by destruct Hvalid as (_ & _ & [? _] & _). }
  rewrite Hloss, Hslice. split; [done|].
  intros Hall. rewrite drop_ge by lia. done.
Qed.

Lemma non_positive_prediction_time_skips_steps_witness :
  valid_dataset 2 3 (Scenario.dataset 2) /\ 2 <= 3 /\
  has_weight_variable Scenario.tvars /\ -1 <= 0 /\
  exists m,
    Scenario.model Scenario.reduce_sum (-1) 2 zero = Some m /\
    loss m = div (Scenario.reduce_sum
                    [ [Scenario.p 3 1; Scenario.p 1 7] ]) two.
Proof.
  assert (Hvalid : valid_dataset 2 3 (Scenario.dataset 2))
    by (apply scenario_dataset_valid; lia).
  assert (HT : 2 <= 3) by lia.
  assert (Hvar : has_weight_variable Scenario.tvars)
    by exact scenario_has_weight_variable.
  assert (Hp : -1 <= 0) by lia.
  repeat (split; [assumption|]).
  destruct (non_positive_prediction_time_skips_steps (Scenario.dataset 2)
              Scenario.helper_ground_truth Scenario.position_verbatim
              Scenario.reduce_sum (Some Scenario.pooling_zeros) 4 2 (-1) 3 3
              zero Scenario.weights Scenario.tvars Hvalid HT Hvar Hp)
    as (m & l2 & Hm & Hl2 & Hloss & _).
  exists m. split; [exact Hm|]. rewrite Hloss.
  vm_compute in Hl2. injection Hl2 as <-.
  vm_compute in Hm. injection Hm as <-. vm_compute. reflexivity.
Defined.

(** ** All slots active *)

Lemma map_take_all {A} (k : nat) (t : list (list A)) :
  Forall (fun row => length row = k) t -> map (take k) t = t.
Proof.
  intros Hrows. induction Hrows as [|row t Hrow _ IH]; [done|].
  simpl. rewrite IH, take_ge by lia. done.
Qed.

(** X14.  When every slot is active ([num_peds_frame = max_num_ped]) and
    [position_estimate] returns one prediction per slot, the slice of the
    loss masks nothing: for [prediction_time >= 1] the loss function
    receives the last [prediction_time] steps whole, and its value is
    divided by [max_num_ped]. *)
Theorem all_slots_active_no_masking {V Msk : Type}
    (dataset : Dataset Msk) (helper : Helper)
    (position_estimate : @PositionEstimate V) (loss_function : @LossFunction V)
    (pooling_module : option (Pooling Msk)) (lstm_size max_num_ped : nat)
    (prediction_time trajectory_size : Z) (embedding_size : nat)
    (l2_norm : float32) (weights : Weights) (tvars : list TFVariable) :
  valid_dataset max_num_ped trajectory_size dataset ->
  2 <= trajectory_size ->
  1 <= prediction_time ->
  has_weight_variable tvars ->
  tensors_2 dataset = Z.of_nat max_num_ped ->
  (forall layered_output next size layer,
     length (position_estimate layered_output next size layer).1 = length next) ->
  exists m l2,
    SocialModel_init dataset helper position_estimate loss_function
      pooling_module lstm_size max_num_ped prediction_time trajectory_size
      embedding_size l2_norm weights tvars = Some m /\
    l2_loss l2_norm tvars = Some l2 /\
    loss m =
    add (div (loss_function
                (last_steps (Z.to_nat prediction_time) (new_coordinates m)))
             (of_Z (Z.of_nat max_num_ped)))
        l2.
Proof.
  intros Hvalid HT Hp Hvar Hall Hper.
  destruct (decode_frames_is_Some dataset position_estimate embedding_size
              weights max_num_ped trajectory_size Hvalid
              (initial_state helper pooling_module lstm_size max_num_ped weights))
    as [st Hst].
  destruct (SocialModel_init_Some dataset helper position_estimate loss_function
              pooling_module lstm_size max_num_ped prediction_time
              trajectory_size embedding_size l2_norm weights tvars st _ Hst
              (l2_loss_stated l2_norm tvars Hvar))
    as (m & Hm & Hnew & _ & Hloss).
  exists m, (stated_regularization half_squared_norm l2_norm tvars).
  split; [exact Hm|]. split; [by apply l2_loss_stated|].
  rewrite Hloss, Hnew, loss_slice_counts, Hall by lia.
  unfold first_slots. rewrite Nat2Z.id, map_take_all; [done|].
  unfold last_steps. apply Forall_drop.
  eapply (decode_one_per_slot dataset position_estimate embedding_size
            weights max_num_ped trajectory_size Hvalid Hper); [|exact Hst].
  constructor.
Qed.

Lemma all_slots_active_no_masking_witness :
  valid_dataset 2 3 (Scenario.dataset 2) /\ 2 <= 3 /\ 1 <= 1 /\
  has_weight_variable Scenario.tvars /\
  tensors_2 (Scenario.dataset 2) = Z.of_nat 2 /\
  (forall layered_output next size layer,
     length (Scenario.position_verbatim layered_output next size layer).1
     = length next) /\
  exists m,
    Scenario.model Scenario.reduce_sum 1 2 zero = Some m /\
    loss m = div (Scenario.reduce_sum
                    [ [Scenario.p 3 1; Scenario.p 1 7] ]) two.
Proof.
  assert (Hvalid : valid_dataset 2 3 (Scenario.dataset 2))
    by (apply scenario_dataset_valid; lia).
  assert (HT : 2 <= 3) by lia.
  assert (Hp : 1 <= 1) by lia.
  assert (Hvar : has_weight_variable Scenario.tvars)
    by exact scenario_has_weight_variable.
  assert (Hall : tensors_2 (Scenario.dataset 2) = Z.of_nat 2) by reflexivity.
  assert (Hper : forall layered_output next size layer,
            length (Scenario.position_verbatim layered_output next size layer).1
            = length next) by reflexivity.
  repeat (split; [assumption|]).
  destruct (all_slots_active_no_masking (Scenario.dataset 2)
              Scenario.helper_ground_truth Scenario.position_verbatim
              Scenario.reduce_sum (Some Scenario.pooling_zeros) 4 2 1 3 3
              zero Scenario.weights Scenario.tvars Hvalid HT Hp Hvar Hall Hper)
    as (m & l2 & Hm & Hl2 & Hloss).
  exists m. split; [exact Hm|]. rewrite Hloss.
  vm_compute in Hl2. injection Hl2 as <-.
  vm_compute in Hm. injection Hm as <-. vm_compute. reflexivity.
Defined.
